(** * A shallow embedding of the schema-RAG query service

    The development follows the two source files of the repository:

    - [metadata_extractor.py]: [get_db_connection_url], [extract_metadata],
      [load_schema_documents];
    - [main.py]: [initialize_rag_components], [lifespan], [health_check],
      [handle_query].

    Python values are modelled as follows.  A [str] is a [string] (a sequence
    of characters with code below 256); an exception is a class name and a
    message; a function that may raise returns a [res]; the module-level
    component handles of [main.py] are a record of options ([None] or an
    object); every call into an external service (database, vector store,
    language model) takes its outcome from an explicit environment value, so
    that the theorems quantify over everything those services may do.
    Calls to [logger] have no effect on any returned value and are left out. *)

From Stdlib Require Import String Ascii List Bool Arith Lia.
Import ListNotations.
Open Scope string_scope.

(** ** Python strings *)

Module Py.

(** The newline character, written [\n] in the source. *)
Definition nl : string := String "010"%char EmptyString.

(** [str.isspace] on one character with code below 256. *)
Definition is_space (c : ascii) : bool :=
  let n := nat_of_ascii c in
  (((9 <=? n) && (n <=? 13)) || ((28 <=? n) && (n <=? 32))
   || (n =? 133) || (n =? 160))%nat.

Fixpoint lstrip (s : string) : string :=
  match s with
  | EmptyString => EmptyString
  | String c s' => if is_space c then lstrip s' else s
  end.

Fixpoint rstrip (s : string) : string :=
  match s with
  | EmptyString => EmptyString
  | String c s' =>
      match rstrip s' with
      | EmptyString => if is_space c then EmptyString else String c EmptyString
      | r => String c r
      end
  end.

(** [s.strip()] *)
Definition strip (s : string) : string := lstrip (rstrip s).

(** [sub in s] *)
Fixpoint contains (sub s : string) : bool :=
  prefix sub s ||
  match s with
  | EmptyString => false
  | String _ s' => contains sub s'
  end.

(** [s.split(sep)] for a non-empty separator: the pieces between the
    non-overlapping occurrences of [sep], scanning from the left.  [skip]
    counts the characters of a separator that are still to be passed. *)
Fixpoint split_from (sep : string) (skip : nat) (s : string) : list string :=
  match s with
  | EmptyString => [EmptyString]
  | String c s' =>
      match skip with
      | S k => split_from sep k s'
      | O =>
          if prefix sep s
          then EmptyString :: split_from sep (pred (String.length sep)) s'
          else match split_from sep 0 s' with
               | p :: ps => String c p :: ps
               | [] => [String c EmptyString]
               end
      end
  end.

Definition split (sep s : string) : list string := split_from sep 0 s.

(** [sep.join(l)] *)
Definition join (sep : string) (l : list string) : string :=
  String.concat sep l.

(** Truth value of a string: non-empty. *)
Definition truthy (s : string) : bool :=
  match s with EmptyString => false | _ => true end.

End Py.

(** ** Exceptions and results *)

Record exn : Type := Exn { exn_class : string; exn_msg : string }.

(** [str(e)] and [f"{e}"] *)
Definition str_exn (e : exn) : string := exn_msg e.

Inductive res (A : Type) : Type :=
| Ok (a : A)
| Raise (e : exn).
Arguments Ok {A} a.
Arguments Raise {A} e.

Definition is_ok {A} (r : res A) : bool :=
  match r with Ok _ => true | Raise _ => false end.

(** ** Documents *)

(** [langchain.docstore.document.Document]: the text and a metadata dict,
    kept as the key/value pairs of the dict literal in their order. *)
Record Document : Type := mkDocument {
  page_content : string;
  metadata : list (string * string)
}.

(** * metadata_extractor.py *)

Module MetadataExtractor.

Import Py.

(** A row of [table_column_query]: the six selected columns.  The two
    comments are [COALESCE]d to the empty string by the statement. *)
Record ColumnRow : Type := mkColumnRow {
  table_schema : string;
  table_name : string;
  column_name : string;
  data_type : string;
  column_comment : string;
  table_comment : string
}.

(** A row of [view_query]. *)
Record ViewRow : Type := mkViewRow {
  view_schema : string;
  view_name : string;
  view_definition : string;
  view_comment : string
}.

(** An open connection: what [connection.execute] does with each of the
    statements the program sends. *)
Record Connection : Type := mkConnection {
  exec_table_column_query : res (list ColumnRow);
  exec_view_query : res (list ViewRow);
  exec_select_1 : res unit
}.

(** An engine: the outcomes of its successive [connect()] calls.  Once the
    script is used up the database refuses the connection. *)
Definition Engine : Type := list (res Connection).

Definition connection_refused : exn :=
  Exn "OperationalError" "connection refused".

Definition connect (engine : Engine) : res Connection * Engine :=
  match engine with
  | [] => (Raise connection_refused, [])
  | r :: engine' => (r, engine')
  end.

(** [os.getenv(key, default)] over an environment. *)
Definition getenv (environ : string -> option string) (key default : string)
  : string :=
  match environ key with
  | Some v => v
  | None => default
  end.

Definition get_db_connection_url (environ : string -> option string) : string :=
  let db_user := getenv environ "POSTGRES_USER" "user" in
  let db_password := getenv environ "POSTGRES_PASSWORD" "password" in
  let db_host := getenv environ "DB_HOST" "db" in
  let db_port := getenv environ "DB_PORT" "5432" in
  let db_name := getenv environ "POSTGRES_DB" "ragdb" in
  "postgresql+psycopg2://" ++ db_user ++ ":" ++ db_password ++ "@"
    ++ db_host ++ ":" ++ db_port ++ "/" ++ db_name.

(** The values of the [tables_data] dict. *)
Record Column : Type := mkColumn {
  col_name : string;
  col_type : string;
  col_comment : string
}.

Record TableData : Type := mkTableData {
  td_schema : string;
  td_name : string;
  td_comment : string;
  td_columns : list Column
}.

(** [tables_data]: a dict keyed by [f"{schema}.{table}"]; a Python dict
    iterates in insertion order, so it is an association list in which a
    key occurs at most once. *)
Definition TablesData : Type := list (string * TableData).

Definition table_key (schema table : string) : string :=
  schema ++ "." ++ table.

(** [key in tables_data] *)
Fixpoint has_key (key : string) (d : TablesData) : bool :=
  match d with
  | [] => false
  | (k, _) :: d' => String.eqb k key || has_key key d'
  end.

(** [tables_data[key]["columns"].append(col)] *)
Fixpoint append_column (key : string) (col : Column) (d : TablesData)
  : TablesData :=
  match d with
  | [] => []
  | (k, data) :: d' =>
      if String.eqb k key
      then (k, mkTableData (td_schema data) (td_name data) (td_comment data)
                           (td_columns data ++ [col])%list) :: d'
      else (k, data) :: append_column key col d'
  end.

(** The body of [for row in result_tables_cols]. *)
Definition add_row (d : TablesData) (row : ColumnRow) : TablesData :=
  let key := table_key (table_schema row) (table_name row) in
  let d1 :=
    if has_key key d then d
    else (d ++ [(key, mkTableData (table_schema row) (table_name row)
                                  (table_comment row) [])])%list in
  append_column key
    (mkColumn (column_name row) (data_type row) (column_comment row)) d1.

Definition group_rows (rows : list ColumnRow) : TablesData :=
  fold_left add_row rows [].

(** One pass of [for col in data['columns']]. *)
Definition render_column (col : Column) : string :=
  "  - " ++ col_name col ++ " (" ++ col_type col ++ ")"
    ++ (if truthy (col_comment col) then ": " ++ col_comment col else EmptyString)
    ++ nl.

(** [table_doc_content] before [.strip()]. *)
Definition table_doc_content (data : TableData) : string :=
  fold_left (fun acc col => acc ++ render_column col) (td_columns data)
    ("Table: " ++ td_name data ++ " (Schema: " ++ td_schema data ++ ")" ++ nl
      ++ (if truthy (td_comment data)
          then "Comment: " ++ td_comment data ++ nl else EmptyString)
      ++ "Columns:" ++ nl).

Definition table_document (data : TableData) : Document :=
  mkDocument (strip (table_doc_content data))
    [("source_type", "table"); ("table_name", td_name data);
     ("schema_name", td_schema data)].

Definition view_doc_content (row : ViewRow) : string :=
  "View: " ++ view_name row ++ " (Schema: " ++ view_schema row ++ ")" ++ nl
    ++ (if truthy (view_comment row)
        then "Comment: " ++ view_comment row ++ nl else EmptyString)
    ++ "Definition:" ++ nl ++ view_definition row ++ nl.

Definition view_document (row : ViewRow) : Document :=
  mkDocument (strip (view_doc_content row))
    [("source_type", "view"); ("view_name", view_name row);
     ("schema_name", view_schema row)].

(** The first [try] block: a failure of the statement is caught and leaves
    [documents] as it was. *)
Definition table_documents (connection : Connection) : list Document :=
  match exec_table_column_query connection with
  | Ok rows => map (fun kd => table_document (snd kd)) (group_rows rows)
  | Raise _ => []
  end.

(** The second [try] block. *)
Definition view_documents (connection : Connection) : list Document :=
  match exec_view_query connection with
  | Ok rows => map view_document rows
  | Raise _ => []
  end.

(** [extract_metadata(engine)]: [engine.connect()] is outside every [try],
    the two statements are each inside their own. *)
Definition extract_metadata (engine : Engine) : res (list Document) :=
  match fst (connect engine) with
  | Raise e => Raise e
  | Ok connection =>
      Ok (table_documents connection ++ view_documents connection)%list
  end.

(** [load_schema_documents()]: [create_engine] and the test connection are
    inside the [try]; whatever is raised there, or by [extract_metadata],
    is caught and the empty list returned. *)
Definition load_schema_documents (create_engine : res Engine)
  : list Document :=
  match create_engine with
  | Raise _ => []
  | Ok engine =>
      match connect engine with
      | (Raise _, _) => []
      | (Ok _, engine') =>
          match extract_metadata engine' with
          | Raise _ => []
          | Ok schema_docs => schema_docs
          end
      end
  end.

End MetadataExtractor.

(** * main.py *)

Module Main.

Import Py MetadataExtractor.

(** ** Component handles *)

(** [ChatOpenAI]: the completion capability. *)
Record ChatOpenAI : Type := mkChatOpenAI {
  llm_complete : string -> res string
}.

(** [OpenAIEmbeddings] *)
Record OpenAIEmbeddings : Type := mkOpenAIEmbeddings {
  embeddings_model_name : string
}.

(** [SQLDatabase]: its [engine] attribute and what
    [get_usable_table_names()] does. *)
Record SQLDatabase : Type := mkSQLDatabase {
  sd_engine : option Engine;
  sd_get_usable_table_names : res (list string)
}.

(** [Chroma]: the collection it is connected to, in insertion order, the
    similarity of a query text to a stored text (higher is closer), and the
    outcomes of the service calls the program makes on it. *)
Record Chroma : Type := mkChroma {
  collection : list Document;
  similarity : string -> string -> nat;
  collection_count : res nat;
  add_documents_fault : option exn;
  client_heartbeat : res unit;
  search_fault : string -> option exn
}.

(** [vectorstore.as_retriever(search_kwargs={"k": k})] *)
Record Retriever : Type := mkRetriever {
  r_vectorstore : Chroma;
  r_k : nat
}.

(** The dict returned by [qa_chain.ainvoke]; [source_documents] is [None]
    when the key is absent. *)
Record QAResult : Type := mkQAResult {
  qa_answer : string;
  source_documents : option (list Document)
}.

Record RetrievalQA : Type := mkRetrievalQA {
  qa_ainvoke : string -> res QAResult
}.

(** An [AgentAction]: [tool] and [log] are [None] when the object has no
    such attribute ([hasattr] is false). *)
Record AgentAction : Type := mkAgentAction {
  tool : option string;
  tool_input : string;
  log : option string
}.

(** One element of [intermediate_steps]: the action and its observation. *)
Definition Step : Type := (AgentAction * string)%type.

(** The dict returned by [sql_agent_executor.ainvoke]; a field is [None]
    when the key is absent. *)
Record AgentResponse : Type := mkAgentResponse {
  intermediate_steps : option (list Step);
  output : option string
}.

Record AgentExecutor : Type := mkAgentExecutor {
  agent_ainvoke : string -> res AgentResponse
}.

(** ** Global variables *)

Record Globals : Type := mkGlobals {
  db_engine : option SQLDatabase;
  vectorstore : option Chroma;
  qa_chain : option RetrievalQA;
  sql_agent_executor : option AgentExecutor;
  llm : option ChatOpenAI;
  embeddings_model : option OpenAIEmbeddings
}.

Definition initial_globals : Globals :=
  mkGlobals None None None None None None.

Definition set_db_engine (x : option SQLDatabase) (g : Globals) : Globals :=
  mkGlobals x (vectorstore g) (qa_chain g) (sql_agent_executor g) (llm g)
    (embeddings_model g).
Definition set_vectorstore (x : option Chroma) (g : Globals) : Globals :=
  mkGlobals (db_engine g) x (qa_chain g) (sql_agent_executor g) (llm g)
    (embeddings_model g).
Definition set_qa_chain (x : option RetrievalQA) (g : Globals) : Globals :=
  mkGlobals (db_engine g) (vectorstore g) x (sql_agent_executor g) (llm g)
    (embeddings_model g).
Definition set_sql_agent_executor (x : option AgentExecutor) (g : Globals)
  : Globals :=
  mkGlobals (db_engine g) (vectorstore g) (qa_chain g) x (llm g)
    (embeddings_model g).
Definition set_llm (x : option ChatOpenAI) (g : Globals) : Globals :=
  mkGlobals (db_engine g) (vectorstore g) (qa_chain g) (sql_agent_executor g)
    x (embeddings_model g).
Definition set_embeddings_model (x : option OpenAIEmbeddings) (g : Globals)
  : Globals :=
  mkGlobals (db_engine g) (vectorstore g) (qa_chain g) (sql_agent_executor g)
    (llm g) x.

(** Truth value of a component handle: [None] is false, an object true. *)
Definition truthy_opt {A} (x : option A) : bool :=
  match x with Some _ => true | None => false end.

(** ** Pydantic models *)

Record QueryRequest : Type := mkQueryRequest {
  req_natural_language_query : string
}.

Record QueryResponse : Type := mkQueryResponse {
  natural_language_query : string;
  sql_query : option string;
  result : option string;
  context_from_vector_db : option string;
  error : option string
}.

Record HealthCheckResponse : Type := mkHealthCheckResponse {
  status : string;
  services : list (string * string)
}.

(** ** The document index and the retrieval chain *)

(** Insertion into a list kept in descending order of [score]; an element
    goes after those with the same score, so equal scores stay in
    insertion order. *)
Fixpoint insert_desc (score : Document -> nat) (d : Document)
  (l : list Document) : list Document :=
  match l with
  | [] => [d]
  | x :: l' =>
      if (score x <? score d)%nat then d :: l
      else x :: insert_desc score d l'
  end.

Definition sort_desc (score : Document -> nat) (l : list Document)
  : list Document :=
  fold_left (fun acc d => insert_desc score d acc) l [].

(** Modelled from the spec: the Document Index operation [query(text, k)]
    of section 4.2, which the vector-store library implements outside this
    repository.  It returns the [k] stored documents closest to [text] by
    similarity, the closest first; documents of equal similarity keep their
    insertion order, which makes the result deterministic. *)
Definition similarity_search (vs : Chroma) (text : string) (k : nat)
  : list Document :=
  firstn k
    (sort_desc (fun d => similarity vs text (page_content d)) (collection vs)).

(** [retriever.get_relevant_documents(query)]: the search with the
    retriever's [k], unless the service call fails. *)
Definition get_relevant_documents (r : Retriever) (query : string)
  : res (list Document) :=
  match search_fault (r_vectorstore r) query with
  | Some e => Raise e
  | None => Ok (similarity_search (r_vectorstore r) query (r_k r))
  end.

(** Modelled from the spec: the chain built by
    [RetrievalQA.from_chain_type(llm, "stuff", retriever,
    return_source_documents=True)], a library object.  It retrieves the
    documents for the query, asks the model for an answer over them, and
    returns both; a failure of either step is raised. *)
Definition stuff_chain (model : ChatOpenAI) (retriever : Retriever)
  : RetrievalQA :=
  mkRetrievalQA (fun query =>
    match get_relevant_documents retriever query with
    | Raise e => Raise e
    | Ok docs =>
        match llm_complete model
                (join (nl ++ nl) (map page_content docs) ++ nl ++ query) with
        | Raise e => Raise e
        | Ok answer => Ok (mkQAResult answer (Some docs))
        end
    end).

(** ** health_check *)

(** The names bound at module level in [main.py]: its imports, globals,
    classes and functions.  [text] is used by [health_check] and is not
    among them (nor is it a builtin): only [metadata_extractor.py] imports
    it. *)
Definition module_names : list string :=
  [ "os"; "logging"; "FastAPI"; "HTTPException"; "Depends"; "status";
    "BaseModel"; "asynccontextmanager"; "List"; "Optional"; "Dict"; "Any";
    "OpenAIEmbeddings"; "ChatOpenAI"; "Chroma"; "RetrievalQA";
    "SQLDatabase"; "SQLDatabaseToolkit"; "create_sql_agent";
    "load_schema_documents"; "get_db_connection_url"; "Document";
    "logger"; "db_engine"; "vectorstore"; "qa_chain";
    "sql_agent_executor"; "llm"; "embeddings_model"; "QueryRequest";
    "QueryResponse"; "HealthCheckResponse"; "initialize_rag_components";
    "lifespan"; "app"; "health_check"; "handle_query" ].

(** Evaluation of a global name. *)
Definition load_name (name : string) : res unit :=
  if existsb (String.eqb name) module_names then Ok tt
  else Raise (Exn "NameError" ("name '" ++ name ++ "' is not defined")).

Definition init_label (b : bool) : string :=
  if b then "Initialized" else "Not Initialized".

(** [db_engine and db_engine.engine] *)
Definition db_engine_and_engine (g : Globals) : option Engine :=
  match db_engine g with
  | Some db => sd_engine db
  | None => None
  end.

(** The body of the first [try] of [health_check]: open a connection, then
    evaluate [connection.execute(text("SELECT 1"))], whose argument is
    evaluated before the call. *)
Definition select_1_probe (engine : Engine) : res unit :=
  match fst (connect engine) with
  | Raise e => Raise e
  | Ok connection =>
      match load_name "text" with
      | Raise e => Raise e
      | Ok _ => exec_select_1 connection
      end
  end.

(** [db_ok] and the [postgresql_connection] entry. *)
Definition check_db (g : Globals) : bool * string :=
  match db_engine_and_engine g with
  | Some engine =>
      match select_1_probe engine with
      | Ok _ => (true, "OK")
      | Raise e => (false, "Error: " ++ str_exn e)
      end
  | None => (false, "Not Initialized")
  end.

(** [chroma_ok] and the [chromadb_connection] entry; the only value ever
    stored in [vectorstore] is a [Chroma], so the [isinstance] test holds
    whenever the handle is set. *)
Definition check_chroma (g : Globals) : bool * string :=
  match vectorstore g with
  | Some vs =>
      match client_heartbeat vs with
      | Ok _ => (true, "OK")
      | Raise e => (false, "Error: " ++ str_exn e)
      end
  | None => (false, "Not Initialized or not Chroma")
  end.

(** The six component handles, as the two lists of [health_check] have
    them. *)
Definition components (g : Globals) : list bool :=
  [ truthy_opt (llm g); truthy_opt (embeddings_model g);
    truthy_opt (db_engine g); truthy_opt (vectorstore g);
    truthy_opt (qa_chain g); truthy_opt (sql_agent_executor g) ].

(** Python's [all] and [any] on truth values. *)
Definition all (l : list bool) : bool := forallb (fun b => b) l.
Definition any (l : list bool) : bool := existsb (fun b => b) l.

Definition health_check (g : Globals) : HealthCheckResponse :=
  let services_status :=
    [ ("llm", init_label (truthy_opt (llm g)));
      ("embeddings_model", init_label (truthy_opt (embeddings_model g)));
      ("sql_database_engine",
        init_label (truthy_opt (db_engine_and_engine g)));
      ("vector_store", init_label (truthy_opt (vectorstore g)));
      ("qa_chain", init_label (truthy_opt (qa_chain g)));
      ("sql_agent_executor", init_label (truthy_opt (sql_agent_executor g)))
    ] in
  let '(db_ok, db_entry) := check_db g in
  let '(chroma_ok, chroma_entry) := check_chroma g in
  let services_status :=
    (services_status ++ [ ("postgresql_connection", db_entry);
                          ("chromadb_connection", chroma_entry) ])%list in
  let app_status :=
    if negb (all (components g ++ [db_ok; chroma_ok]))
    then if negb (any (components g)) then "error" else "degraded"
    else "ok" in
  mkHealthCheckResponse app_status services_status.

(** ** handle_query *)

(** What the endpoint does with a request: it raises [HTTPException], or
    it completes with a [QueryResponse]. *)
Inductive HttpOutcome : Type :=
| HTTPException (status_code : nat) (detail : string)
| Completed (response : QueryResponse).

Definition no_context_retrieved : string := "No context retrieved.".

Definition context_separator : string := nl ++ "---" ++ nl.

(** Step 1 of [handle_query]: the first [try] block and its handler. *)
Definition retrieve_context (chain : RetrievalQA) (natural_query : string)
  : string :=
  match qa_ainvoke chain natural_query with
  | Ok qa_result =>
      let docs :=
        match source_documents qa_result with
        | Some l => l
        | None => []
        end in
      match docs with
      | [] => no_context_retrieved
      | _ :: _ => join context_separator (map page_content docs)
      end
  | Raise e =>
      "Error retrieving context: " ++ str_exn e
        ++ ". Proceeding without schema context."
  end.

Definition prompt_for_sql_agent (context_docs_str natural_query : string)
  : string :=
  "Based on the following potentially relevant schema information:" ++ nl
    ++ "--- SCHEMA CONTEXT START ---" ++ nl ++ context_docs_str ++ nl
    ++ "--- SCHEMA CONTEXT END ---" ++ nl ++ nl
    ++ "User query: " ++ natural_query ++ nl ++ nl
    ++ "Generate a SQL query to answer the user query. Then execute it and return the result. "
    ++ "If the query asks for something not answerable by SQL or the schema, explain why.".

Definition sql_not_extracted : string :=
  "SQL query not explicitly extracted from agent steps.".

Definition sql_tool : string := "sql_db_query".

(** The text [Invoking "sql_db_query"], with its two double quotes. *)
Definition invoking_marker : string :=
  "Invoking " ++ String "034"%char ("sql_db_query" ++ String "034"%char EmptyString).

Definition with_marker : string := "with `".

Definition index_error : exn := Exn "IndexError" "list index out of range".

(** [log_entry.split("with `")[1].split("`")[0]] *)
Definition sql_of_log (log_entry : string) : res string :=
  match nth_error (split with_marker log_entry) 1 with
  | None => Raise index_error
  | Some after =>
      match nth_error (split "`" after) 0 with
      | None => Raise index_error
      | Some sql => Ok sql
      end
  end.

(** [hasattr(step[0], 'tool') and step[0].tool == 'sql_db_query'] *)
Definition is_sql_tool_call (action : AgentAction) : bool :=
  match tool action with
  | Some t => String.eqb t sql_tool
  | None => false
  end.

(** The two substring tests on a log entry. *)
Definition log_matches (log_entry : string) : bool :=
  contains invoking_marker log_entry && contains with_marker log_entry.

(** The loop over [agent_response['intermediate_steps']]; the result is the
    value of [generated_sql] when the loop ends or breaks. *)
Fixpoint scan_steps (steps : list Step) (generated_sql : string) : string :=
  match steps with
  | [] => generated_sql
  | step :: steps' =>
      if is_sql_tool_call (fst step) then tool_input (fst step)
      else
        match log (fst step) with
        | Some log_entry =>
            if log_matches log_entry then
              match sql_of_log log_entry with
              | Ok sql => sql
              | Raise _ => scan_steps steps' generated_sql
              end
            else scan_steps steps' generated_sql
        | None => scan_steps steps' generated_sql
        end
  end.

Definition extract_generated_sql (agent_response : AgentResponse) : string :=
  match intermediate_steps agent_response with
  | Some steps => scan_steps steps sql_not_extracted
  | None => sql_not_extracted
  end.

Definition final_answer (agent_response : AgentResponse) : string :=
  match output agent_response with
  | Some o => o
  | None => "No output from SQL agent."
  end.

(** Step 2 of [handle_query]: the second [try] block and its handler. *)
Definition run_sql_agent (agent : AgentExecutor)
  (natural_query context_docs_str : string) : QueryResponse :=
  match agent_ainvoke agent
          (prompt_for_sql_agent context_docs_str natural_query) with
  | Ok agent_response =>
      mkQueryResponse natural_query
        (Some (extract_generated_sql agent_response))
        (Some (final_answer agent_response))
        (Some context_docs_str)
        None
  | Raise e =>
      mkQueryResponse natural_query None None (Some context_docs_str)
        (Some ("Error in SQL agent: " ++ str_exn e))
  end.

Definition handle_query (g : Globals) (request : QueryRequest) : HttpOutcome :=
  match qa_chain g, sql_agent_executor g, llm g with
  | Some chain, Some agent, Some _ =>
      let natural_query := req_natural_language_query request in
      let context_docs_str := retrieve_context chain natural_query in
      Completed (run_sql_agent agent natural_query context_docs_str)
  | _, _, _ =>
      HTTPException 503
        "Service not fully initialized. Please try again later."
  end.

(** ** Startup: a state and exception monad *)

(** What startup does to the outside: it announces a pass of the retry
    loop (the log line [Attempt n/5], with [attempt] counted from 0), it
    hands a list of documents to [vectorstore.add_documents], and it
    sleeps. *)
Inductive Event : Type :=
| AttemptStarted (attempt : nat)
| AddDocuments (docs : list Document)
| Slept (seconds : nat).

(** The global variables and the events so far, oldest first. *)
Record World : Type := mkWorld {
  globals : Globals;
  events : list Event
}.

Definition M (A : Type) : Type := World -> res A * World.

Definition ret {A} (a : A) : M A := fun w => (Ok a, w).

Definition bind {A B} (m : M A) (k : A -> M B) : M B :=
  fun w =>
    match m w with
    | (Ok a, w') => k a w'
    | (Raise e, w') => (Raise e, w')
    end.

Definition raise {A} (e : exn) : M A := fun w => (Raise e, w).

(** [try: body / except Exception as e: handler e] *)
Definition try_except {A} (body : M A) (handler : exn -> M A) : M A :=
  fun w =>
    match body w with
    | (Ok a, w') => (Ok a, w')
    | (Raise e, w') => handler e w'
    end.

Definition lift {A} (r : res A) : M A := fun w => (r, w).

Definition get_globals : M Globals := fun w => (Ok (globals w), w).

Definition modify_globals (f : Globals -> Globals) : M unit :=
  fun w => (Ok tt, mkWorld (f (globals w)) (events w)).

Definition emit (ev : Event) : M unit :=
  fun w => (Ok tt, mkWorld (globals w) (events w ++ [ev])%list).

Declare Scope startup_scope.
Delimit Scope startup_scope with startup.
Notation "x <- m ;; k" := (bind m (fun x => k))
  (at level 61, m at next level, right associativity) : startup_scope.
Notation "m ;; k" := (bind m (fun _ => k))
  (at level 61, right associativity) : startup_scope.
Local Open Scope startup_scope.

(** ** initialize_rag_components *)

(** What one pass of the retry loop finds outside: the outcome of
    [create_engine] inside [load_schema_documents], and of the [Chroma]
    constructor. *)
Record Attempt : Type := mkAttempt {
  at_create_engine : res Engine;
  at_Chroma : res Chroma
}.

(** Everything startup reads from outside the process. *)
Record Env : Type := mkEnv {
  environ : string -> option string;
  new_ChatOpenAI : string -> res ChatOpenAI;
  new_OpenAIEmbeddings : string -> res OpenAIEmbeddings;
  SQLDatabase_from_uri : string -> res SQLDatabase;
  attempts : nat -> Attempt;
  from_chain_type_fault : option exn;
  create_sql_agent : SQLDatabase -> ChatOpenAI -> res AgentExecutor
}.

Definition max_retries : nat := 5.
Definition retry_delay : nat := 10.

Definition placeholder_document : Document :=
  mkDocument "No schema information available."
    [("source_type", "placeholder")].

(** [vectorstore.add_documents(schema_docs)]: the whole batch is stored or
    the call raises. *)
Definition add_documents (vs : Chroma) (docs : list Document) : res Chroma :=
  match add_documents_fault vs with
  | Some e => Raise e
  | None =>
      Ok (mkChroma (collection vs ++ docs)%list (similarity vs)
            (collection_count vs) (add_documents_fault vs)
            (client_heartbeat vs) (search_fault vs))
  end.

(** The body of the outer [try] of the retry loop. *)
Definition attempt_body (env : Env) (attempt : nat) : M unit :=
  emit (AttemptStarted attempt) ;;
  let schema_docs :=
    load_schema_documents (at_create_engine (attempts env attempt)) in
  let schema_docs :=
    match schema_docs with
    | [] => [placeholder_document]
    | _ :: _ => schema_docs
    end in
  vs <- lift (at_Chroma (attempts env attempt)) ;;
  modify_globals (set_vectorstore (Some vs)) ;;
  count <- lift (collection_count vs) ;;
  if (count =? 0)%nat || true then
    emit (AddDocuments schema_docs) ;;
    vs' <- lift (add_documents vs schema_docs) ;;
    modify_globals (set_vectorstore (Some vs'))
  else ret tt.

(** [for attempt in range(max_retries)], from [attempt] on with
    [remaining] passes left.  A pass that succeeds breaks out of the loop;
    one that raises either re-raises (last attempt) or sleeps and goes on. *)
Fixpoint retry_loop (env : Env) (attempt remaining : nat) : M unit :=
  match remaining with
  | O => ret tt
  | S remaining' =>
      try_except (attempt_body env attempt)
        (fun e =>
           if (attempt + 1 =? max_retries)%nat then raise e
           else emit (Slept retry_delay) ;;
                retry_loop env (S attempt) remaining')
  end.

Definition value_error (msg : string) : exn := Exn "ValueError" msg.
Definition connection_error (msg : string) : exn := Exn "ConnectionError" msg.

Definition initialize_rag_components (env : Env) : M unit :=
  (* 0. environment *)
  openai_api_key <-
    match environ env "OPENAI_API_KEY" with
    | Some key =>
        if truthy key then ret key
        else raise (value_error "OPENAI_API_KEY is required.")
    | None => raise (value_error "OPENAI_API_KEY is required.")
    end ;;
  let db_url := get_db_connection_url (environ env) in
  (* 1. LLM and embeddings *)
  model <- lift (new_ChatOpenAI env openai_api_key) ;;
  modify_globals (set_llm (Some model)) ;;
  emb <- lift (new_OpenAIEmbeddings env openai_api_key) ;;
  modify_globals (set_embeddings_model (Some emb)) ;;
  (* 2. SQLDatabase *)
  db <- lift (SQLDatabase_from_uri env db_url) ;;
  modify_globals (set_db_engine (Some db)) ;;
  _ <- lift (sd_get_usable_table_names db) ;;
  (* 3. schema documents into the vector store, with retries *)
  retry_loop env 0 max_retries ;;
  (* 4. retriever and QA chain *)
  g <- get_globals ;;
  match vectorstore g with
  | Some vs =>
      let retriever := mkRetriever vs 3 in
      match from_chain_type_fault env with
      | Some e => raise e
      | None => modify_globals (set_qa_chain (Some (stuff_chain model retriever)))
      end
  | None =>
      raise (connection_error
               "Failed to initialize vector store. QA chain setup aborted.")
  end ;;
  (* 5. SQL agent *)
  g <- get_globals ;;
  match db_engine g, llm g with
  | Some db', Some model' =>
      agent <- lift (create_sql_agent env db' model') ;;
      modify_globals (set_sql_agent_executor (Some agent))
  | _, _ =>
      raise (connection_error
               "Failed to initialize DB engine or LLM. SQL Agent setup aborted.")
  end.

(** ** lifespan *)

(** The application after the startup half of [lifespan]: it serves
    requests with the globals startup left, or startup raised and the
    application never starts serving. *)
Inductive AppState : Type :=
| Ready (g : Globals)
| StartupFailed (e : exn).

Definition initial_world : World := mkWorld initial_globals [].

Definition lifespan (env : Env) : AppState * list Event :=
  match initialize_rag_components env initial_world with
  | (Ok _, w) => (Ready (globals w), events w)
  | (Raise e, w) => (StartupFailed e, events w)
  end.

End Main.

(** * The grouping of rows, said directly

    What [group_rows] computes, written without the dict: the keys in the
    order in which they first appear, and for each key the rows that carry
    it.  [group_rows_is_grouped] below proves the two equal. *)

Module Grouping.

Import Py MetadataExtractor.

Definition row_key (row : ColumnRow) : string :=
  table_key (table_schema row) (table_name row).

Definition row_column (row : ColumnRow) : Column :=
  mkColumn (column_name row) (data_type row) (column_comment row).

(** The rows that carry [key], in their order. *)
Definition rows_of (key : string) (rows : list ColumnRow) : list ColumnRow :=
  filter (fun row => String.eqb (row_key row) key) rows.

(** The keys of the rows, each once, in order of first appearance. *)
Fixpoint distinct_keys (rows : list ColumnRow) : list string :=
  match rows with
  | [] => []
  | row :: rows' =>
      row_key row
        :: filter (fun k => negb (String.eqb k (row_key row)))
             (distinct_keys rows')
  end.

(** The entry of [key]: schema, name and comment of the first row that
    carries it, and one column for each row that carries it. *)
Definition entry_of (rows : list ColumnRow) (key : string)
  : list (string * TableData) :=
  match rows_of key rows with
  | [] => []
  | first :: _ =>
      [(key, mkTableData (table_schema first) (table_name first)
               (table_comment first) (map row_column (rows_of key rows)))]
  end.

Definition grouped (rows : list ColumnRow) : TablesData :=
  flat_map (entry_of rows) (distinct_keys rows).

(** An entry of the dict after more rows with its key have been seen. *)
Definition extend (rows : list ColumnRow) (entry : string * TableData)
  : string * TableData :=
  (fst entry,
   mkTableData (td_schema (snd entry)) (td_name (snd entry))
     (td_comment (snd entry))
     (td_columns (snd entry) ++ map row_column (rows_of (fst entry) rows))).

(** The number of columns held by a dict, over all its entries. *)
Definition column_total (d : TablesData) : nat :=
  list_sum (map (fun entry => List.length (td_columns (snd entry))) d).

(** The table a row belongs to: its schema and its name. *)
Definition row_table (row : ColumnRow) : string * string :=
  (table_schema row, table_name row).

Definition same_table (p q : string * string) : bool :=
  String.eqb (fst p) (fst q) && String.eqb (snd p) (snd q).

(** The tables of the rows, each once, in order of first appearance. *)
Fixpoint distinct_tables (rows : list ColumnRow) : list (string * string) :=
  match rows with
  | [] => []
  | row :: rows' =>
      row_table row
        :: filter (fun p => negb (same_table p (row_table row)))
             (distinct_tables rows')
  end.

End Grouping.

(** * Summaries of one pass of the retry loop

    Three functions of the environment that say, without running the monad,
    what a pass of the retry loop hands to the index, whether it succeeds and
    which events it leaves.  [attempt_body_summary] below proves that
    [attempt_body] behaves as they say. *)

Module Pass.

Import Py MetadataExtractor Main.

(** The body of the [try] of [load_schema_documents] raises: in
    [create_engine], in the test connection, or in [extract_metadata]. *)
Definition load_raises (create_engine : res Engine) : bool :=
  match create_engine with
  | Raise _ => true
  | Ok engine =>
      match connect engine with
      | (Raise _, _) => true
      | (Ok _, engine') => negb (is_ok (extract_metadata engine'))
      end
  end.

(** The documents a pass hands to [add_documents]. *)
Definition docs_to_index (env : Env) (attempt : nat) : list Document :=
  match load_schema_documents (at_create_engine (attempts env attempt)) with
  | [] => [placeholder_document]
  | d :: l => d :: l
  end.

(** A pass succeeds when the [Chroma] constructor, [count()] and
    [add_documents] all return. *)
Definition attempt_succeeds (env : Env) (attempt : nat) : bool :=
  match at_Chroma (attempts env attempt) with
  | Ok vs =>
      is_ok (collection_count vs)
      && negb (truthy_opt (add_documents_fault vs))
  | Raise _ => false
  end.

(** The events of a pass. *)
Definition attempt_events (env : Env) (attempt : nat) : list Event :=
  AttemptStarted attempt ::
  match at_Chroma (attempts env attempt) with
  | Ok vs =>
      match collection_count vs with
      | Ok _ => [AddDocuments (docs_to_index env attempt)]
      | Raise _ => []
      end
  | Raise _ => []
  end.

(** The events of the first [n] passes with the sleeps between them. *)
Definition passes_events (env : Env) (first n : nat) : list Event :=
  flat_map
    (fun k =>
       attempt_events env k
         ++ (if (k + 1 <? first + n)%nat then [Slept retry_delay] else []))%list
    (seq first n).

(** The seconds slept, and the passes announced, in a list of events. *)
Definition slept_seconds (evs : list Event) : list nat :=
  flat_map (fun ev => match ev with Slept s => [s] | _ => [] end) evs.

Definition attempts_started (evs : list Event) : list nat :=
  flat_map (fun ev => match ev with AttemptStarted a => [a] | _ => [] end) evs.

(** The document lists handed to [add_documents]. *)
Definition documents_added (evs : list Event) : list (list Document) :=
  flat_map (fun ev => match ev with AddDocuments d => [d] | _ => [] end) evs.

End Pass.

(** * Steps of an agent trace *)

Module Trace.

Import Py MetadataExtractor Main.

(** A step that leaves [generated_sql] as it is and lets the loop of
    [handle_query] go on: it is not a call of the SQL tool, and it has no
    log entry passing the two substring tests. *)
Definition passes_over (step : Step) : bool :=
  negb (is_sql_tool_call (fst step))
  && match log (fst step) with
     | Some log_entry => negb (log_matches log_entry)
     | None => true
     end.

End Trace.

(** * Concrete inputs used by the examples below *)

Module Examples.

Import Py MetadataExtractor Main.

(** A database that answers every statement. *)
Definition live_connection : Connection :=
  mkConnection (Ok []) (Ok []) (Ok tt).

Definition live_engine : Engine :=
  [Ok live_connection; Ok live_connection; Ok live_connection].

Definition live_database : SQLDatabase :=
  mkSQLDatabase (Some live_engine) (Ok []).

(** A vector store that answers every call. *)
Definition live_chroma : Chroma :=
  mkChroma [placeholder_document] (fun _ _ => 0) (Ok 1) None (Ok tt)
    (fun _ => None).

Definition a_model : ChatOpenAI := mkChatOpenAI (fun _ => Ok "3").

Definition an_agent_response : AgentResponse :=
  mkAgentResponse
    (Some [(mkAgentAction (Some "sql_db_query")
              "SELECT count(*) FROM sales.contracts WHERE status = 'Active'"
              None, "[(3,)]")])
    (Some "There are 3 active contracts.").

Definition an_agent : AgentExecutor :=
  mkAgentExecutor (fun _ => Ok an_agent_response).

(** Every component constructed, database and vector store reachable. *)
Definition all_up : Globals :=
  mkGlobals (Some live_database) (Some live_chroma)
    (Some (stuff_chain a_model (mkRetriever live_chroma 3)))
    (Some an_agent) (Some a_model)
    (Some (mkOpenAIEmbeddings "text-embedding-ada-002")).

Definition a_request : QueryRequest :=
  mkQueryRequest "How many active contracts are there?".

(** A connection on which the table statement fails and the view statement
    returns one view. *)
Definition a_view : ViewRow :=
  mkViewRow "sales" "active_contracts_view"
    "SELECT contract_id FROM sales.contracts WHERE status = 'Active';"
    "A view showing currently active contracts.".

Definition tables_fail_connection : Connection :=
  mkConnection (Raise (Exn "ProgrammingError" "permission denied"))
    (Ok [a_view]) (Ok tt).

(** An empty collection on a vector store that answers every call. *)
Definition empty_chroma : Chroma :=
  mkChroma [] (fun _ _ => 0) (Ok 0) None (Ok tt) (fun _ => None).

Definition api_key_only (key : string) : option string :=
  if String.eqb key "OPENAI_API_KEY" then Some "sk-test" else None.

(** An environment in which every service answers. *)
Definition live_env : Env :=
  mkEnv api_key_only
    (fun _ => Ok a_model)
    (fun _ => Ok (mkOpenAIEmbeddings "text-embedding-ada-002"))
    (fun _ => Ok live_database)
    (fun _ => mkAttempt (Ok live_engine) (Ok empty_chroma))
    None
    (fun _ _ => Ok an_agent).

(** The same, with the vector store unreachable at every pass. *)
Definition chroma_down_env : Env :=
  mkEnv api_key_only
    (fun _ => Ok a_model)
    (fun _ => Ok (mkOpenAIEmbeddings "text-embedding-ada-002"))
    (fun _ => Ok live_database)
    (fun _ => mkAttempt (Ok live_engine)
                (Raise (Exn "ConnectionError" "chroma unreachable")))
    None
    (fun _ _ => Ok an_agent).

(** The same as [live_env], with the database refusing the connections that
    [load_schema_documents] opens. *)
Definition db_down_env : Env :=
  mkEnv api_key_only
    (fun _ => Ok a_model)
    (fun _ => Ok (mkOpenAIEmbeddings "text-embedding-ada-002"))
    (fun _ => Ok live_database)
    (fun _ => mkAttempt (Ok []) (Ok empty_chroma))
    None
    (fun _ _ => Ok an_agent).




(** A trace whose first step calls another tool and has a log entry that
    passes the two substring tests, and whose second step calls the SQL
    tool. *)
Definition a_schema_step : Step :=
  (mkAgentAction (Some "sql_db_schema") "contracts"
     (Some (invoking_marker ++ " with `SELECT 2`")),
   "CREATE TABLE contracts (...)").

Definition a_query_step : Step :=
  (mkAgentAction (Some "sql_db_query") "SELECT 1" None, "[(1,)]").

(** A step that calls another tool and has no log. *)
Definition a_list_tables_step : Step :=
  (mkAgentAction (Some "sql_db_list_tables") EmptyString None, "contracts").

(** Two tables whose names give the same text [a.b.c]: table [c] of schema
    [a.b], and table [b.c] of schema [a]. *)
Definition dotted_schema_row : ColumnRow :=
  mkColumnRow "a.b" "c" "id" "integer" EmptyString EmptyString.

Definition dotted_table_row : ColumnRow :=
  mkColumnRow "a" "b.c" "total" "numeric" EmptyString EmptyString.

(** The rows of a table with two columns and of another with one. *)
Definition some_rows : list ColumnRow :=
  [ mkColumnRow "sales" "contracts" "contract_id" "integer"
      "Unique identifier for the contract." "Stores sales contracts.";
    mkColumnRow "public" "invoices" "amount" "numeric" EmptyString EmptyString;
    mkColumnRow "sales" "contracts" "status" "character varying"
      EmptyString "Stores sales contracts." ].

Definition some_rows_connection : Connection :=
  mkConnection (Ok some_rows) (Ok [a_view]) (Ok tt).

End Examples.

(** * Properties *)

Import Py MetadataExtractor Main.

(** ** health_check *)

Lemma text_is_not_defined :
  load_name "text" = Raise (Exn "NameError" "name 'text' is not defined").
Proof. reflexivity. Qed.

(** The database probe of [health_check] raises on every engine: when the
    connection opens, the unbound name [text] raises [NameError]. *)
Lemma select_1_probe_raises (engine : Engine) :
  exists e, select_1_probe engine = Raise e.
Proof.
  unfold select_1_probe.
  destruct (fst (connect engine)) as [connection | e].
  - rewrite text_is_not_defined. eauto.
  - eauto.
Qed.

Lemma check_db_false (g : Globals) : fst (check_db g) = false.
Proof.
  unfold check_db.
  destruct (db_engine_and_engine g) as [engine |]; [| reflexivity].
  destruct (select_1_probe_raises engine) as [e He].
  rewrite He. reflexivity.
Qed.

Lemma all_app (l1 l2 : list bool) : all (l1 ++ l2) = all l1 && all l2.
Proof. unfold all. apply forallb_app. Qed.

(** The overall status is computed from the eight flags as the specification
    says: [ok] when all hold, [error] when none of the six components is
    set, [degraded] otherwise. *)
Lemma health_status_cases (g : Globals) :
  (status (health_check g) = "ok" <->
     all (components g) = true /\ fst (check_db g) = true
     /\ fst (check_chroma g) = true)
  /\ (status (health_check g) = "error" <-> any (components g) = false)
  /\ (status (health_check g) = "degraded" <->
        any (components g) = true
        /\ (all (components g) && fst (check_db g) && fst (check_chroma g)
            = false)).
Proof.
  unfold health_check.
  destruct (check_db g) as [db_ok db_entry].
  destruct (check_chroma g) as [chroma_ok chroma_entry].
  cbn [status fst].
  rewrite all_app.
  assert (Hany : all (components g) = true -> any (components g) = true).
  { unfold all, any, components. cbn.
    destruct (truthy_opt (llm g)); [reflexivity | discriminate]. }
  destruct (all (components g)) eqn:Hall.
  - rewrite (Hany eq_refl).
    destruct db_ok, chroma_ok; cbn; intuition congruence.
  - destruct (any (components g)), db_ok, chroma_ok; cbn; intuition congruence.
Qed.

(** X8: No state of the components makes [health_check] answer [ok]. *)
Lemma health_check_never_ok (g : Globals) : status (health_check g) <> "ok".
Proof.
  intros H. apply (proj1 (health_status_cases g)) in H.
  destruct H as (_ & Hdb & _).
  rewrite check_db_false in Hdb. discriminate.
Qed.

(** C3: with every component constructed, the database answering [SELECT 1]
    and the vector store answering its heartbeat, [health_check] reports
    [degraded], and the database entry carries the [NameError] raised by the
    unbound name [text]. *)
Theorem health_check_all_up_is_degraded :
  status (health_check Examples.all_up) = "degraded"
  /\ In ("postgresql_connection", "Error: name 'text' is not defined")
        (services (health_check Examples.all_up))
  /\ In ("chromadb_connection", "OK") (services (health_check Examples.all_up))
  /\ all (components Examples.all_up) = true.
Proof.
  repeat split; cbn; auto 10.
Qed.

(** ** handle_query: answer or error *)

(** C1: a request that [handle_query] completes (it did not raise the 503
    [HTTPException]) has exactly one of [result] and [error] set. *)
Theorem answer_xor_error (g : Globals) (request : QueryRequest)
  (response : QueryResponse) :
  handle_query g request = Completed response ->
  (result response <> None /\ error response = None)
  \/ (result response = None /\ error response <> None).
Proof.
  unfold handle_query.
  destruct (qa_chain g) as [chain |]; [| discriminate].
  destruct (sql_agent_executor g) as [agent |]; [| discriminate].
  destruct (llm g) as [model |]; [| discriminate].
  intros H. injection H as <-.
  unfold run_sql_agent.
  destruct (agent_ainvoke agent _) as [agent_response | e]; cbn.
  - left. split; [discriminate | reflexivity].
  - right. split; [reflexivity | discriminate].
Qed.

Lemma answer_xor_error_witness :
  exists response,
    handle_query Examples.all_up Examples.a_request = Completed response
    /\ ((result response <> None /\ error response = None)
        \/ (result response = None /\ error response <> None)).
Proof.
  eexists. split.
  - reflexivity.
  - apply (answer_xor_error Examples.all_up Examples.a_request).
    reflexivity.
Defined.

(** ** extract_metadata: what fails and what does not *)

(** C2: [extract_metadata] raises only when [engine.connect()] raises.  On
    an open connection it returns the table documents followed by the view
    documents; a statement that raises contributes no document and leaves the
    documents of the other statement as they are. *)
Theorem extraction_fails_only_on_connect (engine : Engine) :
  (forall e, extract_metadata engine = Raise e ->
             fst (connect engine) = Raise e)
  /\ (forall connection, fst (connect engine) = Ok connection ->
        extract_metadata engine
          = Ok (table_documents connection ++ view_documents connection)%list
        /\ (forall e, exec_table_column_query connection = Raise e ->
              table_documents connection = [])
        /\ (forall e, exec_view_query connection = Raise e ->
              view_documents connection = [])
        /\ (forall rows, exec_table_column_query connection = Ok rows ->
              table_documents connection
                = map (fun kd => table_document (snd kd)) (group_rows rows))
        /\ (forall rows, exec_view_query connection = Ok rows ->
              view_documents connection = map view_document rows)).
Proof.
  unfold extract_metadata. split.
  - intros e. destruct (fst (connect engine)); congruence.
  - intros connection ->. unfold table_documents, view_documents.
    repeat split; intros ? ->; reflexivity.
Qed.

Lemma extraction_fails_only_on_connect_witness :
  extract_metadata [Ok Examples.tables_fail_connection]
    = Ok [view_document Examples.a_view].
Proof.
  destruct (extraction_fails_only_on_connect
              [Ok Examples.tables_fail_connection]) as [_ H].
  destruct (H Examples.tables_fail_connection eq_refl)
    as (Hdocs & Htables & _ & _ & Hviews).
  rewrite Hdocs.
  rewrite (Htables _ eq_refl), (Hviews _ eq_refl).
  reflexivity.
Defined.

(** [load_schema_documents] returns the empty list whenever the body of its
    [try] raises, and the extracted documents otherwise. *)
Lemma load_schema_documents_cases (create_engine : res Engine) :
  if Pass.load_raises create_engine
  then load_schema_documents create_engine = []
  else exists engine connection engine',
      create_engine = Ok engine
      /\ connect engine = (Ok connection, engine')
      /\ extract_metadata engine' = Ok (load_schema_documents create_engine).
Proof.
  unfold Pass.load_raises, load_schema_documents.
  destruct create_engine as [engine | e]; [| reflexivity].
  destruct (connect engine) as [[connection | e] engine'] eqn:Hc;
    [| reflexivity].
  destruct (extract_metadata engine') as [docs | e] eqn:He; cbn.
  - exists engine, connection, engine'. auto.
  - reflexivity.
Qed.

(** ** The retry loop *)

Ltac run_monad :=
  unfold bind, ret, raise, lift, emit, modify_globals, get_globals,
    try_except; cbn [globals events fst snd].
(** A pass of the loop does what its summary says, from any world. *)
Lemma attempt_body_summary (env : Env) (attempt : nat) (w : World) :
  exists r g',
    attempt_body env attempt w
      = (r, mkWorld g' (events w ++ Pass.attempt_events env attempt))
    /\ is_ok r = Pass.attempt_succeeds env attempt.
Proof.
  unfold attempt_body, Pass.attempt_events, Pass.attempt_succeeds,
    Pass.docs_to_index, add_documents.
  run_monad.
  destruct (at_Chroma (attempts env attempt)) as [vs | e]; cbn.
  - destruct (collection_count vs) as [n | e]; cbn.
    + rewrite orb_true_r.
      destruct (load_schema_documents _) as [| d l];
        destruct (add_documents_fault vs) as [e |]; cbn;
        rewrite <- app_assoc; cbn; eauto.
    + eauto.
  - eauto.
Qed.

Lemma passes_events_step (env : Env) (first n : nat) :
  Pass.passes_events env first (S n)
  = (Pass.attempt_events env first
       ++ (if (first + 1 <? first + S n)%nat then [Slept retry_delay] else [])
       ++ Pass.passes_events env (S first) n)%list.
Proof.
  unfold Pass.passes_events. cbn [seq flat_map].
  rewrite <- app_assoc.
  replace (S first + n) with (first + S n) by lia.
  reflexivity.
Qed.

(** The loop from pass [first] with [remaining] passes left, where
    [first + remaining] is the bound: it makes [n] passes, at least one and
    at most [remaining]; all but the last fail; it returns when the last
    succeeds and raises only after using up the passes; between two passes
    it sleeps [retry_delay] seconds. *)
Lemma retry_loop_summary (env : Env) :
  forall (remaining first : nat) (w : World),
    first + remaining = max_retries -> 0 < remaining ->
    exists n,
      1 <= n <= remaining
      /\ (forall k, first <= k < first + n - 1 ->
            Pass.attempt_succeeds env k = false)
      /\ is_ok (fst (retry_loop env first remaining w))
         = Pass.attempt_succeeds env (first + n - 1)
      /\ (is_ok (fst (retry_loop env first remaining w)) = false ->
          n = remaining)
      /\ events (snd (retry_loop env first remaining w))
         = (events w ++ Pass.passes_events env first n)%list.
Proof.
  induction remaining as [| remaining IH]; intros first w Hsum Hpos; [lia |].
  cbn [retry_loop]. unfold try_except.
  destruct (attempt_body_summary env first w) as (r & g' & Hbody & Hok).
  rewrite Hbody.
  assert (Hone : Pass.passes_events env first 1
                 = Pass.attempt_events env first).
  { rewrite passes_events_step.
    replace (first + 1 <? first + 1)%nat with false
      by (symmetry; apply Nat.ltb_ge; lia).
    unfold Pass.passes_events. cbn [seq flat_map].
    rewrite !app_nil_r. reflexivity. }
  destruct r as [u | e]; cbn [is_ok] in Hok.
  - (* the pass succeeds: break *)
    exists 1. cbn [fst snd events is_ok].
    replace (first + 1 - 1) with first by lia.
    rewrite Hone.
    refine (conj _ (conj _ (conj Hok (conj _ eq_refl)))).
    + lia.
    + intros k Hk. lia.
    + discriminate.
  - destruct (first + 1 =? max_retries)%nat eqn:Hlast.
    + (* last pass: re-raise *)
      apply Nat.eqb_eq in Hlast.
      assert (remaining = 0) by lia. subst remaining.
      exists 1. unfold raise. cbn [fst snd events is_ok].
      replace (first + 1 - 1) with first by lia.
      rewrite Hone.
      refine (conj _ (conj _ (conj Hok (conj _ eq_refl)))).
      * lia.
      * intros k Hk. lia.
      * reflexivity.
    + (* sleep, then the next pass *)
      apply Nat.eqb_neq in Hlast.
      run_monad.
      destruct (IH (S first)
                  (mkWorld g' ((events w ++ Pass.attempt_events env first)
                               ++ [Slept retry_delay]))
                  ltac:(lia) ltac:(lia))
        as (n & Hn & Hfail & Hres & Hraise & Hev).
      exists (S n).
      replace (first + S n - 1) with (S first + n - 1) by lia.
      refine (conj _ (conj _ (conj Hres (conj _ _)))).
      * lia.
      * intros k Hk.
        destruct (Nat.eq_dec k first) as [-> | Hne].
        -- symmetry. exact Hok.
        -- apply Hfail. lia.
      * intros H. apply Hraise in H. lia.
      * rewrite Hev. cbn [events].
        rewrite passes_events_step.
        replace (first + 1 <? first + S n)%nat with true
          by (symmetry; apply Nat.ltb_lt; lia).
        rewrite <- !app_assoc. reflexivity.
Qed.

(** A pass of the loop touches no global but [vectorstore]; when it
    succeeds, [vectorstore] is the handle the constructor returned, with the
    documents of the pass appended to its collection. *)
Lemma attempt_body_globals (env : Env) (attempt : nat) (w : World) :
  let r := attempt_body env attempt w in
  db_engine (globals (snd r)) = db_engine (globals w)
  /\ qa_chain (globals (snd r)) = qa_chain (globals w)
  /\ sql_agent_executor (globals (snd r)) = sql_agent_executor (globals w)
  /\ llm (globals (snd r)) = llm (globals w)
  /\ embeddings_model (globals (snd r)) = embeddings_model (globals w)
  /\ (is_ok (fst r) = true ->
      exists vs vs',
        at_Chroma (attempts env attempt) = Ok vs
        /\ vectorstore (globals (snd r)) = Some vs'
        /\ collection vs'
           = (collection vs ++ Pass.docs_to_index env attempt)%list
        /\ similarity vs' = similarity vs
        /\ client_heartbeat vs' = client_heartbeat vs
        /\ search_fault vs' = search_fault vs).
Proof.
  unfold attempt_body, Pass.docs_to_index, add_documents.
  run_monad.
  destruct (at_Chroma (attempts env attempt)) as [vs | e]; cbn.
  - destruct (collection_count vs) as [n | e]; cbn.
    + rewrite orb_true_r.
      destruct (load_schema_documents _) as [| d l];
        destruct (add_documents_fault vs) as [e |]; cbn;
        repeat (split; [reflexivity |]); intros H; try discriminate;
        exists vs; eexists; cbn; repeat (split; [reflexivity |]); reflexivity.
    + repeat (split; [reflexivity |]). discriminate.
  - repeat (split; [reflexivity |]). discriminate.
Qed.

(** The same for the whole loop: when it returns, the vector store handle is
    the one of a succeeding pass with that pass's documents appended. *)
Lemma retry_loop_globals (env : Env) :
  forall (remaining first : nat) (w : World),
    first + remaining = max_retries -> 0 < remaining ->
    let r := retry_loop env first remaining w in
    db_engine (globals (snd r)) = db_engine (globals w)
    /\ qa_chain (globals (snd r)) = qa_chain (globals w)
    /\ sql_agent_executor (globals (snd r)) = sql_agent_executor (globals w)
    /\ llm (globals (snd r)) = llm (globals w)
    /\ embeddings_model (globals (snd r)) = embeddings_model (globals w)
    /\ (is_ok (fst r) = true ->
        exists attempt vs vs',
          first <= attempt < first + remaining
          /\ Pass.attempt_succeeds env attempt = true
          /\ at_Chroma (attempts env attempt) = Ok vs
          /\ vectorstore (globals (snd r)) = Some vs'
          /\ collection vs'
             = (collection vs ++ Pass.docs_to_index env attempt)%list
          /\ similarity vs' = similarity vs
          /\ client_heartbeat vs' = client_heartbeat vs
          /\ search_fault vs' = search_fault vs).
Proof.
  induction remaining as [| remaining IH]; intros first w Hsum Hpos; [lia |].
  cbn [retry_loop]. unfold try_except.
  pose proof (attempt_body_globals env first w) as Hg.
  destruct (attempt_body_summary env first w) as (r & g' & Hbody & Hok).
  cbn zeta in Hg. rewrite Hbody in Hg. cbn [fst snd globals] in Hg.
  rewrite Hbody.
  destruct Hg as (H1 & H2 & H3 & H4 & H5 & H6).
  destruct r as [u | e]; cbn [is_ok] in Hok, H6.
  - cbn [fst snd globals is_ok].
    repeat (split; [assumption |]). intros _.
    destruct (H6 eq_refl) as (vs & vs' & Hvs).
    exists first, vs, vs'. split; [lia |]. split; [congruence | exact Hvs].
  - destruct (first + 1 =? max_retries)%nat eqn:Hlast.
    + unfold raise. cbn [fst snd globals is_ok].
      repeat (split; [assumption |]). discriminate.
    + apply Nat.eqb_neq in Hlast.
      run_monad.
      specialize (IH (S first)
                    (mkWorld g' ((events w ++ Pass.attempt_events env first)
                                 ++ [Slept retry_delay]))
                    ltac:(lia) ltac:(lia)).
      cbn zeta in IH. cbn [globals] in IH.
      destruct IH as (I1 & I2 & I3 & I4 & I5 & I6).
      rewrite I1, I2, I3, I4, I5.
      repeat (split; [assumption |]). intros Hret.
      destruct (I6 Hret) as (attempt & vs & vs' & Hrange & Hrest).
      exists attempt, vs, vs'. split; [lia | exact Hrest].
Qed.

(** Startup as a whole.  Either one of the steps before the retry loop
    raises, and nothing has happened yet; or they all succeed and the loop
    starts in a world with the model, the embeddings and the database handle
    set.  Then startup leaves the events of the loop, raises what the loop
    raises, and when it returns all six globals are set, the chain being
    built over the loop's vector store with [k = 3]. *)
Lemma initialize_summary (env : Env) :
  let r := initialize_rag_components env initial_world in
  (exists e, fst r = Raise e /\ events (snd r) = [])
  \/ (exists key model emb db,
        environ env "OPENAI_API_KEY" = Some key
        /\ truthy key = true
        /\ new_ChatOpenAI env key = Ok model
        /\ new_OpenAIEmbeddings env key = Ok emb
        /\ SQLDatabase_from_uri env (get_db_connection_url (environ env))
           = Ok db
        /\ is_ok (sd_get_usable_table_names db) = true
        /\ let w0 :=
             mkWorld (mkGlobals (Some db) None None None (Some model)
                        (Some emb)) [] in
           let l := retry_loop env 0 max_retries w0 in
           events (snd r) = events (snd l)
           /\ (is_ok (fst l) = false -> fst r = fst l)
           /\ (is_ok (fst r) = true ->
               is_ok (fst l) = true
               /\ exists vs agent,
                   vectorstore (globals (snd l)) = Some vs
                   /\ from_chain_type_fault env = None
                   /\ create_sql_agent env db model = Ok agent
                   /\ globals (snd r)
                      = mkGlobals (Some db) (Some vs)
                          (Some (stuff_chain model (mkRetriever vs 3)))
                          (Some agent) (Some model) (Some emb))).
Proof.
  unfold initialize_rag_components, initial_world, initial_globals.
  run_monad.
  destruct (environ env "OPENAI_API_KEY") as [key |] eqn:Hkey;
    [| left; unfold raise; cbn; eauto].
  destruct (truthy key) eqn:Htruthy;
    [| left; unfold raise; cbn; eauto].
  unfold ret. cbn [fst snd].
  destruct (new_ChatOpenAI env key) as [model | e] eqn:Hmodel;
    [| left; cbn; eauto].
  cbn [fst snd globals events].
  destruct (new_OpenAIEmbeddings env key) as [emb | e] eqn:Hemb;
    [| left; cbn; eauto].
  cbn [fst snd globals events].
  destruct (SQLDatabase_from_uri env _) as [db | e] eqn:Hdb;
    [| left; cbn; eauto].
  cbn [fst snd globals events].
  destruct (sd_get_usable_table_names db) as [names | e] eqn:Hnames;
    [| left; cbn; eauto].
  right. exists key, model, emb, db.
  do 5 (split; [first [reflexivity | assumption] |]).
  split; [rewrite Hnames; reflexivity |].
  cbn [set_llm set_embeddings_model set_db_engine db_engine vectorstore
       qa_chain sql_agent_executor llm embeddings_model].
  pose proof (retry_loop_globals env max_retries 0
                (mkWorld (mkGlobals (Some db) None None None (Some model)
                           (Some emb)) [])
                eq_refl ltac:(unfold max_retries; lia)) as Hg.
  cbn zeta in Hg. cbn [globals db_engine qa_chain sql_agent_executor llm
                       embeddings_model] in Hg.
  destruct Hg as (G1 & G2 & G3 & G4 & G5 & _).
  destruct (retry_loop env 0 max_retries _) as [[u | e] w1].
  - cbn [fst snd is_ok] in *.
    destruct w1 as [g1 ev1]. cbn [globals events] in *.
    destruct g1 as [d v q a l m]. cbn in G1, G2, G3, G4, G5. subst.
    cbn [vectorstore db_engine llm].
    destruct v as [vs |].
    + destruct (from_chain_type_fault env) as [e |] eqn:Hfault.
      * unfold raise. cbn. split; [reflexivity |].
        split; [discriminate | discriminate].
      * cbn.
        destruct (create_sql_agent env db model) as [agent | e] eqn:Hagent.
        -- cbn. split; [reflexivity |]. split; [discriminate |].
           intros _. split; [reflexivity |].
           exists vs, agent. auto.
        -- cbn. split; [reflexivity |].
           split; [discriminate | discriminate].
    + unfold raise. cbn. split; [reflexivity |].
      split; [discriminate | discriminate].
  - cbn [fst snd is_ok]. split; [reflexivity |].
    split; [reflexivity | discriminate].
Qed.


(** ** What the events of the passes contain *)

Lemma attempts_started_app (l1 l2 : list Event) :
  Pass.attempts_started (l1 ++ l2)
  = (Pass.attempts_started l1 ++ Pass.attempts_started l2)%list.
Proof. apply flat_map_app. Qed.

Lemma slept_seconds_app (l1 l2 : list Event) :
  Pass.slept_seconds (l1 ++ l2)
  = (Pass.slept_seconds l1 ++ Pass.slept_seconds l2)%list.
Proof. apply flat_map_app. Qed.

Lemma documents_added_app (l1 l2 : list Event) :
  Pass.documents_added (l1 ++ l2)
  = (Pass.documents_added l1 ++ Pass.documents_added l2)%list.
Proof. apply flat_map_app. Qed.

Lemma attempt_events_projections (env : Env) (attempt : nat) :
  Pass.attempts_started (Pass.attempt_events env attempt) = [attempt]
  /\ Pass.slept_seconds (Pass.attempt_events env attempt) = []
  /\ (Pass.documents_added (Pass.attempt_events env attempt) = []
      \/ Pass.documents_added (Pass.attempt_events env attempt)
         = [Pass.docs_to_index env attempt]).
Proof.
  unfold Pass.attempt_events.
  destruct (at_Chroma (attempts env attempt)) as [vs | e]; cbn; auto.
  destruct (collection_count vs); cbn; auto.
Qed.

Lemma passes_events_projections (env : Env) :
  forall (n first : nat),
    Pass.attempts_started (Pass.passes_events env first n) = seq first n
    /\ Pass.slept_seconds (Pass.passes_events env first n)
       = repeat retry_delay (n - 1)
    /\ (forall docs,
          In docs (Pass.documents_added (Pass.passes_events env first n)) ->
          exists attempt,
            first <= attempt < first + n
            /\ docs = Pass.docs_to_index env attempt).
Proof.
  induction n as [| n IH]; intros first.
  - cbn. repeat split. intros docs [].
  - rewrite passes_events_step.
    destruct (attempt_events_projections env first) as (Ha & Hs & Hd).
    destruct (IH (S first)) as (IHa & IHs & IHd).
    rewrite !attempts_started_app, !slept_seconds_app, Ha, Hs, IHa, IHs.
    split; [| split].
    + destruct (first + 1 <? first + S n)%nat; reflexivity.
    + destruct n as [| n].
      * replace (first + 1 <? first + 1)%nat with false
          by (symmetry; apply Nat.ltb_ge; lia).
        reflexivity.
      * replace (first + 1 <? first + S (S n))%nat with true
          by (symmetry; apply Nat.ltb_lt; lia).
        cbn. rewrite Nat.sub_0_r. reflexivity.
    + intros docs. rewrite !documents_added_app.
      rewrite !in_app_iff. intros [Hin | [Hin | Hin]].
      * exists first. split; [lia |].
        destruct Hd as [Hd | Hd]; rewrite Hd in Hin; cbn in Hin;
          [contradiction | destruct Hin as [<- | []]; reflexivity].
      * destruct (first + 1 <? first + S n)%nat; cbn in Hin; contradiction.
      * destruct (IHd docs Hin) as (attempt & Hrange & Heq).
        exists attempt. split; [lia | exact Heq].
Qed.

(** X1: The retry loop makes at most five passes, numbered from 0; it sleeps
    ten seconds between two passes and at no other time; every pass but the
    last one fails; the loop returns exactly when its last pass succeeds, and
    it raises only when five passes have failed. *)
Theorem retry_loop_bound (env : Env) (w : World) :
  exists n new,
    events (snd (retry_loop env 0 max_retries w)) = (events w ++ new)%list
    /\ 1 <= n <= 5
    /\ Pass.attempts_started new = seq 0 n
    /\ Pass.slept_seconds new = repeat 10 (n - 1)
    /\ (forall k, k < n - 1 -> Pass.attempt_succeeds env k = false)
    /\ is_ok (fst (retry_loop env 0 max_retries w))
       = Pass.attempt_succeeds env (n - 1)
    /\ (is_ok (fst (retry_loop env 0 max_retries w)) = false -> n = 5).
Proof.
  destruct (retry_loop_summary env max_retries 0 w eq_refl
              ltac:(unfold max_retries; lia))
    as (n & Hn & Hfail & Hres & Hraise & Hev).
  destruct (passes_events_projections env n 0) as (Ha & Hs & _).
  exists n, (Pass.passes_events env 0 n).
  refine (conj Hev (conj Hn (conj Ha (conj Hs (conj _ (conj Hres Hraise)))))).
  intros k Hk. apply Hfail. lia.
Qed.

(** ** lifespan *)

Lemma lifespan_cases (env : Env) :
  lifespan env
  = (match fst (initialize_rag_components env initial_world) with
     | Ok _ => Ready (globals (snd (initialize_rag_components env initial_world)))
     | Raise e => StartupFailed e
     end,
     events (snd (initialize_rag_components env initial_world))).
Proof.
  unfold lifespan.
  destruct (initialize_rag_components env initial_world) as [[u | e] w];
    reflexivity.
Qed.

(** The events of startup are those of at most five passes of the loop. *)
Lemma lifespan_events (env : Env) :
  exists n, n <= 5 /\ snd (lifespan env) = Pass.passes_events env 0 n.
Proof.
  rewrite lifespan_cases. cbn [snd].
  destruct (initialize_summary env) as [(e & _ & Hev) | Hloop].
  - exists 0. split; [lia | exact Hev].
  - destruct Hloop as (key & model & emb & db & _ & _ & _ & _ & _ & _ & Hl).
    cbn zeta in Hl. destruct Hl as (Hev & _).
    destruct (retry_loop_summary env max_retries 0
                (mkWorld (mkGlobals (Some db) None None None (Some model)
                            (Some emb)) [])
                eq_refl ltac:(unfold max_retries; lia))
      as (n & Hn & _ & _ & _ & Hev').
    exists n. split; [unfold max_retries in Hn; lia |].
    rewrite Hev, Hev'. reflexivity.
Qed.

(** X2: When each of the five passes fails, startup raises and the application
    never serves. *)
Theorem startup_fails_after_five_failures (env : Env) :
  (forall k, k < 5 -> Pass.attempt_succeeds env k = false) ->
  exists e, fst (lifespan env) = StartupFailed e.
Proof.
  intros Hfail. rewrite lifespan_cases. cbn [fst].
  destruct (initialize_summary env) as [(e & Hr & _) | Hloop].
  - rewrite Hr. eauto.
  - destruct Hloop as (key & model & emb & db & _ & _ & _ & _ & _ & _ & Hl).
    cbn zeta in Hl. destruct Hl as (_ & Hraise & _).
    destruct (retry_loop_summary env max_retries 0
                (mkWorld (mkGlobals (Some db) None None None (Some model)
                            (Some emb)) [])
                eq_refl ltac:(unfold max_retries; lia))
      as (n & Hn & _ & Hres & _).
    unfold max_retries in Hn.
    rewrite Hfail in Hres by lia.
    rewrite (Hraise Hres).
    destruct (fst (retry_loop env 0 max_retries _)) as [u | e];
      [discriminate | eauto].
Qed.

Lemma startup_fails_after_five_failures_witness :
  exists e, fst (lifespan Examples.chroma_down_env) = StartupFailed e.
Proof.
  apply (startup_fails_after_five_failures Examples.chroma_down_env).
  intros k Hk. reflexivity.
Defined.

(** X3: [add_documents] is never handed an empty list: each call gets the
    documents [load_schema_documents] returned in that pass, or the single
    placeholder document with its fixed text when it returned none. *)
Theorem add_documents_never_empty (env : Env) (docs : list Document) :
  In (AddDocuments docs) (snd (lifespan env)) ->
  docs <> []
  /\ exists attempt,
      attempt < 5
      /\ docs
         = match load_schema_documents
                   (at_create_engine (attempts env attempt)) with
           | [] =>
               [mkDocument "No schema information available."
                  [("source_type", "placeholder")]]
           | d :: l => d :: l
           end.
Proof.
  intros Hin.
  destruct (lifespan_events env) as (n & Hn & Hev).
  rewrite Hev in Hin.
  destruct (passes_events_projections env n 0) as (_ & _ & Hd).
  destruct (Hd docs) as (attempt & Hrange & Heq).
  { unfold Pass.documents_added. apply in_flat_map.
    exists (AddDocuments docs). split; [exact Hin | left; reflexivity]. }
  split.
  - rewrite Heq. unfold Pass.docs_to_index.
    destruct (load_schema_documents _); discriminate.
  - exists attempt. split; [lia | exact Heq].
Qed.

Lemma add_documents_never_empty_witness :
  [placeholder_document] <> []
  /\ exists attempt,
      attempt < 5
      /\ [placeholder_document]
         = match load_schema_documents
                   (at_create_engine
                      (attempts Examples.db_down_env attempt)) with
           | [] =>
               [mkDocument "No schema information available."
                  [("source_type", "placeholder")]]
           | d :: l => d :: l
           end.
Proof.
  apply (add_documents_never_empty Examples.db_down_env).
  cbn. right. left. reflexivity.
Defined.

(** What a successful startup leaves: the six globals, the vector store
    being the handle of a succeeding pass with that pass's documents appended
    to whatever its collection already held, and the chain retrieving from it
    with [k = 3]. *)
Lemma lifespan_ready (env : Env) (g : Globals) :
  fst (lifespan env) = Ready g ->
  exists db vs vs' model emb agent attempt,
    g = mkGlobals (Some db) (Some vs')
          (Some (stuff_chain model (mkRetriever vs' 3)))
          (Some agent) (Some model) (Some emb)
    /\ attempt < 5
    /\ Pass.attempt_succeeds env attempt = true
    /\ at_Chroma (attempts env attempt) = Ok vs
    /\ collection vs'
       = (collection vs ++ Pass.docs_to_index env attempt)%list.
Proof.
  rewrite lifespan_cases. cbn [fst].
  destruct (initialize_summary env) as [(e & Hr & _) | Hloop].
  - rewrite Hr. discriminate.
  - destruct Hloop as (key & model & emb & db & _ & _ & _ & _ & _ & _ & Hl).
    cbn zeta in Hl. destruct Hl as (_ & _ & Hok).
    destruct (fst (initialize_rag_components env initial_world))
      as [u | e] eqn:Hr; [| discriminate].
    intros Hg. injection Hg as <-.
    destruct (Hok eq_refl) as (Hl & vs' & agent & Hvs & _ & _ & Hglobals).
    pose proof (retry_loop_globals env max_retries 0
                  (mkWorld (mkGlobals (Some db) None None None (Some model)
                              (Some emb)) [])
                  eq_refl ltac:(unfold max_retries; lia)) as Hg.
    cbn zeta in Hg. destruct Hg as (_ & _ & _ & _ & _ & Hret).
    destruct (Hret Hl)
      as (attempt & vs & vs2 & Hrange & Hsucc & Hctor & Hvs2 & Hcoll & _).
    rewrite Hvs in Hvs2. injection Hvs2 as <-.
    exists db, vs, vs', model, emb, agent, attempt.
    unfold max_retries in Hrange.
    repeat split; try assumption. lia.
Qed.

(** X4: After a successful startup every component is set, so [handle_query]
    never answers 503: it completes every request. *)
Theorem ready_serves_every_request (env : Env) (g : Globals)
  (request : QueryRequest) :
  fst (lifespan env) = Ready g ->
  all (components g) = true
  /\ exists response, handle_query g request = Completed response.
Proof.
  intros Hready.
  destruct (lifespan_ready env g Hready)
    as (db & vs & vs' & model & emb & agent & attempt & -> & _).
  split; [reflexivity |].
  unfold handle_query. cbn [qa_chain sql_agent_executor llm]. eauto.
Qed.

Lemma ready_serves_every_request_witness :
  exists g,
    fst (lifespan Examples.live_env) = Ready g
    /\ all (components g) = true
    /\ exists response,
        handle_query g Examples.a_request = Completed response.
Proof.
  eexists. split; [reflexivity |].
  apply (ready_serves_every_request Examples.live_env _ Examples.a_request).
  reflexivity.
Defined.

(** X5: Startup re-adds on every run: the collection of the ready application
    is what the vector store already held followed by the documents of the
    pass that succeeded, whatever [count()] returned; and the chain retrieves
    from that store with [k = 3]. *)
Theorem ready_collection_is_appended (env : Env) (g : Globals) :
  fst (lifespan env) = Ready g ->
  exists attempt vs vs' model,
    attempt < 5
    /\ at_Chroma (attempts env attempt) = Ok vs
    /\ vectorstore g = Some vs'
    /\ collection vs'
       = (collection vs
            ++ match load_schema_documents
                       (at_create_engine (attempts env attempt)) with
               | [] => [placeholder_document]
               | d :: l => d :: l
               end)%list
    /\ llm g = Some model
    /\ qa_chain g = Some (stuff_chain model (mkRetriever vs' 3)).
Proof.
  intros Hready.
  destruct (lifespan_ready env g Hready)
    as (db & vs & vs' & model & emb & agent & attempt & -> & Hlt & _ & Hctor
        & Hcoll).
  exists attempt, vs, vs', model. cbn.
  unfold Pass.docs_to_index in Hcoll. auto 10.
Qed.

Lemma ready_collection_is_appended_witness :
  exists g attempt vs vs' model,
    fst (lifespan Examples.live_env) = Ready g
    /\ attempt < 5
    /\ at_Chroma (attempts Examples.live_env attempt) = Ok vs
    /\ vectorstore g = Some vs'
    /\ collection vs'
       = (collection vs
            ++ match load_schema_documents
                       (at_create_engine
                          (attempts Examples.live_env attempt)) with
               | [] => [placeholder_document]
               | d :: l => d :: l
               end)%list
    /\ llm g = Some model
    /\ qa_chain g = Some (stuff_chain model (mkRetriever vs' 3)).
Proof.
  eexists.
  destruct (ready_collection_is_appended Examples.live_env _ eq_refl)
    as (attempt & vs & vs' & model & H).
  exists attempt, vs, vs', model. split; [reflexivity | exact H].
Defined.

(** X6: Without [OPENAI_API_KEY], or with an empty one, startup raises
    [ValueError] before it constructs anything or touches any service. *)
Theorem startup_requires_api_key (env : Env) :
  environ env "OPENAI_API_KEY" = None
  \/ environ env "OPENAI_API_KEY" = Some EmptyString ->
  lifespan env
  = (StartupFailed (Exn "ValueError" "OPENAI_API_KEY is required."), []).
Proof.
  intros [H | H]; unfold lifespan, initialize_rag_components; run_monad;
    rewrite H; reflexivity.
Qed.

Lemma startup_requires_api_key_witness :
  lifespan (mkEnv (fun _ => None) (new_ChatOpenAI Examples.live_env)
              (new_OpenAIEmbeddings Examples.live_env)
              (SQLDatabase_from_uri Examples.live_env)
              (attempts Examples.live_env) None
              (create_sql_agent Examples.live_env))
  = (StartupFailed (Exn "ValueError" "OPENAI_API_KEY is required."), []).
Proof.
  apply startup_requires_api_key. left. reflexivity.
Defined.

(** X7: When the body of the [try] of [load_schema_documents] raises in a pass,
    be it in [create_engine], in the test connection or in
    [extract_metadata], the function returns the empty list, and that pass
    hands the single placeholder document to [add_documents]; if it is the
    first pass and it succeeds, the application becomes ready having indexed
    nothing else. *)
Theorem unreachable_database_indexes_placeholder (env : Env) (g : Globals) :
  Pass.load_raises (at_create_engine (attempts env 0)) = true ->
  Pass.attempt_succeeds env 0 = true ->
  fst (lifespan env) = Ready g ->
  load_schema_documents (at_create_engine (attempts env 0)) = []
  /\ snd (lifespan env) = [AttemptStarted 0; AddDocuments [placeholder_document]]
  /\ exists vs vs',
      at_Chroma (attempts env 0) = Ok vs
      /\ vectorstore g = Some vs'
      /\ collection vs' = (collection vs ++ [placeholder_document])%list.
Proof.
  intros Hraises Hsucc Hready.
  pose proof (load_schema_documents_cases (at_create_engine (attempts env 0)))
    as Hload.
  rewrite Hraises in Hload.
  split; [exact Hload |].
  rewrite lifespan_cases in Hready |- *. cbn [fst snd] in *.
  destruct (initialize_summary env) as [(e & Hr & _) | Hloop].
  - rewrite Hr in Hready. discriminate.
  - destruct Hloop as (key & model & emb & db & _ & _ & _ & _ & _ & _ & Hl).
    cbn zeta in Hl. destruct Hl as (Hev & _ & Hok).
    destruct (fst (initialize_rag_components env initial_world))
      as [u | e] eqn:Hr; [| discriminate].
    injection Hready as <-.
    destruct (Hok eq_refl) as (_ & vs' & agent & Hvs & _ & _ & Hglobals).
    rewrite Hev, Hglobals. cbn [vectorstore].
    revert Hvs. unfold max_retries. cbn [retry_loop]. unfold try_except.
    pose proof (attempt_body_globals env 0
                  (mkWorld (mkGlobals (Some db) None None None (Some model)
                              (Some emb)) [])) as Hg.
    destruct (attempt_body_summary env 0
                (mkWorld (mkGlobals (Some db) None None None (Some model)
                            (Some emb)) []))
      as (r & g' & Hbody & Hres).
    cbn zeta in Hg. rewrite Hbody in Hg |- *. cbn [fst snd globals events] in *.
    rewrite Hsucc in Hres. destruct r as [u' | e]; [| discriminate].
    cbn [fst snd globals events]. intros Hvs.
    destruct Hg as (_ & _ & _ & _ & _ & Hret).
    destruct (Hret eq_refl) as (vs & vs2 & Hctor & Hvs2 & Hcoll & _).
    rewrite Hvs in Hvs2. injection Hvs2 as <-.
    split.
    + unfold Pass.attempt_events. rewrite Hctor.
      unfold Pass.attempt_succeeds in Hsucc. rewrite Hctor in Hsucc.
      destruct (collection_count vs); [| discriminate].
      unfold Pass.docs_to_index. rewrite Hload. reflexivity.
    + exists vs, vs'. split; [exact Hctor |]. split; [reflexivity |].
      rewrite Hcoll. unfold Pass.docs_to_index. rewrite Hload. reflexivity.
Qed.

Lemma unreachable_database_indexes_placeholder_witness :
  exists g,
    load_schema_documents
      (at_create_engine (attempts Examples.db_down_env 0)) = []
    /\ snd (lifespan Examples.db_down_env)
       = [AttemptStarted 0; AddDocuments [placeholder_document]]
    /\ exists vs vs',
        at_Chroma (attempts Examples.db_down_env 0) = Ok vs
        /\ vectorstore g = Some vs'
        /\ collection vs' = (collection vs ++ [placeholder_document])%list.
Proof.
  eexists.
  apply (unreachable_database_indexes_placeholder Examples.db_down_env);
    reflexivity.
Defined.


(** ** handle_query: readiness, context and response *)

(** X9: [handle_query] raises the 503 exactly when the QA chain, the SQL agent
    or the model is not set; in every other state it completes. *)
Theorem service_unavailable_iff (g : Globals) (request : QueryRequest) :
  (handle_query g request
   = HTTPException 503
       "Service not fully initialized. Please try again later."
   <-> qa_chain g = None \/ sql_agent_executor g = None \/ llm g = None)
  /\ ((exists response, handle_query g request = Completed response)
      <-> qa_chain g <> None /\ sql_agent_executor g <> None
          /\ llm g <> None).
Proof.
  unfold handle_query.
  destruct (qa_chain g) as [chain |], (sql_agent_executor g) as [agent |],
    (llm g) as [model |]; split; split;
    try (intros H; discriminate H);
    try (intros [H | [H | H]]; discriminate H);
    try (intros (H1 & H2 & H3); congruence);
    try (intros [response H]; discriminate H);
    eauto; try (intros _; repeat split; discriminate).
Qed.

(** A string that starts with a character is not empty, whatever follows. *)
Lemma append_nonempty_l (a b : string) :
  a <> EmptyString -> (a ++ b)%string <> EmptyString.
Proof. destruct a; [congruence | discriminate]. Qed.

Lemma append_nonempty_r (a b : string) :
  b <> EmptyString -> (a ++ b)%string <> EmptyString.
Proof. destruct a; [auto | discriminate]. Qed.

(** X10: The context is the empty string in one case only: the chain returned a
    single document and its text is empty.  With no document it is the fixed
    text, when the chain raises it is the error text around the message, and
    two or more documents are joined by the separator. *)
Theorem context_empty_iff (chain : RetrievalQA) (natural_query : string) :
  (retrieve_context chain natural_query = EmptyString
   <-> exists r d,
        qa_ainvoke chain natural_query = Ok r
        /\ source_documents r = Some [d]
        /\ page_content d = EmptyString)
  /\ (forall r,
        qa_ainvoke chain natural_query = Ok r ->
        source_documents r = None \/ source_documents r = Some [] ->
        retrieve_context chain natural_query = "No context retrieved.")
  /\ (forall e,
        qa_ainvoke chain natural_query = Raise e ->
        retrieve_context chain natural_query
        = ("Error retrieving context: " ++ exn_msg e
             ++ ". Proceeding without schema context.")%string).
Proof.
  unfold retrieve_context.
  destruct (qa_ainvoke chain natural_query) as [r | e].
  - split; [| split].
    + destruct (source_documents r) as [[| d [| d' l]] |] eqn:Hs.
      * split; [intros H0; discriminate H0 |].
        intros (r' & d & H & H' & _). injection H as <-. congruence.
      * cbn. split.
        -- intros H. exists r, d. auto.
        -- intros (r' & d0 & H & H' & Hc). injection H as <-.
           rewrite Hs in H'. injection H' as <-. exact Hc.
      * split.
        -- intros H. exfalso. revert H. cbn.
           apply append_nonempty_r. discriminate.
        -- intros (r' & d0 & H & H' & _). injection H as <-. congruence.
      * split; [intros H0; discriminate H0 |].
        intros (r' & d & H & H' & _). injection H as <-. congruence.
    + intros r' H [Hs | Hs]; injection H as <-; rewrite Hs; reflexivity.
    + intros e H. discriminate.
  - split; [| split].
    + split; [intros H0; discriminate H0 |].
      intros (r & d & H & _). discriminate.
    + intros r H. discriminate.
    + intros e' H. injection H as <-. reflexivity.
Qed.





(** ** Splitting strings *)

Lemma split_from_not_nil (sep : string) :
  forall (s : string) (skip : nat), split_from sep skip s <> [].
Proof.
  induction s as [| c s IH]; intros skip; cbn [split_from].
  - discriminate.
  - destruct skip as [| k]; [| apply IH].
    destruct (prefix sep (String c s)); [discriminate |].
    destruct (split_from sep 0 s); discriminate.
Qed.

Lemma prefix_of_empty (sep : string) :
  sep <> EmptyString -> prefix sep EmptyString = false.
Proof. destruct sep; [congruence | reflexivity]. Qed.

(** When the separator occurs in a string, [split] returns at least two
    pieces. *)
Lemma split_length_when_contained (sep : string) :
  sep <> EmptyString ->
  forall s, contains sep s = true -> 2 <= List.length (split sep s).
Proof.
  intros Hsep. unfold split.
  induction s as [| c s IH]; cbn [contains split_from].
  - rewrite (prefix_of_empty sep Hsep). cbn. intros H. discriminate H.
  - destruct (prefix sep (String c s)) eqn:Hp; cbn [orb].
    + intros _. cbn [List.length].
      pose proof (split_from_not_nil sep s (pred (String.length sep))) as Hn.
      destruct (split_from sep (pred (String.length sep)) s);
        [congruence | cbn; lia].
    + intros Hc. specialize (IH Hc).
      destruct (split_from sep 0 s) as [| p ps]; cbn in IH |- *; lia.
Qed.

Lemma sql_of_log_total (log_entry : string) :
  contains with_marker log_entry = true ->
  exists sql, sql_of_log log_entry = Ok sql.
Proof.
  intros Hc. unfold sql_of_log.
  pose proof (split_length_when_contained with_marker ltac:(discriminate)
                log_entry Hc) as Hlen.
  destruct (split with_marker log_entry) as [| p [| after rest]];
    cbn in Hlen; try lia.
  cbn [nth_error].
  pose proof (split_from_not_nil "`" after 0) as Hn.
  unfold split. destruct (split_from "`" 0 after) as [| sql pieces];
    [congruence |].
  cbn. eauto.
Qed.

(** X13: On a log entry that passes the two substring tests the double indexing
    of [handle_query] never raises [IndexError]: the handler that passes
    over the entry is never entered. *)
Theorem sql_of_log_never_raises (log_entry : string) :
  log_matches log_entry = true ->
  exists sql, sql_of_log log_entry = Ok sql.
Proof.
  unfold log_matches. intros H. apply andb_prop in H as [_ H].
  exact (sql_of_log_total log_entry H).
Qed.

Lemma sql_of_log_never_raises_witness :
  exists sql,
    sql_of_log
      ("Invoking " ++ String "034"%char ("sql_db_query" ++ String "034"%char
         " with `SELECT 1`"))
    = Ok sql.
Proof.
  apply sql_of_log_never_raises. reflexivity.
Defined.

(** ** The scan of the agent trace *)

Lemma scan_steps_passes_over (pre rest : list Step) (generated_sql : string) :
  forallb Trace.passes_over pre = true ->
  scan_steps (pre ++ rest) generated_sql = scan_steps rest generated_sql.
Proof.
  induction pre as [| step pre IH]; [reflexivity |].
  cbn [forallb app scan_steps]. unfold Trace.passes_over at 1.
  intros H. apply andb_prop in H as [H Hpre].
  apply andb_prop in H as [Htool Hlog].
  apply negb_true_iff in Htool. rewrite Htool.
  destruct (log (fst step)) as [log_entry |]; [| exact (IH Hpre)].
  apply negb_true_iff in Hlog. rewrite Hlog. exact (IH Hpre).
Qed.

(** X14: The reported SQL comes from the first step that does not pass: its
    [tool_input] when it is a call of [sql_db_query]; otherwise the SQL cut
    out of its log entry, also when a later step is a call of
    [sql_db_query]. *)
Theorem sql_query_from_first_deciding_step (pre post : list Step)
  (step : Step) (generated_sql : string) :
  forallb Trace.passes_over pre = true ->
  Trace.passes_over step = false ->
  (is_sql_tool_call (fst step) = true /\
   scan_steps (pre ++ step :: post) generated_sql = tool_input (fst step))
  \/ (is_sql_tool_call (fst step) = false /\
      exists log_entry,
        log (fst step) = Some log_entry
        /\ sql_of_log log_entry
           = Ok (scan_steps (pre ++ step :: post) generated_sql)).
Proof.
  intros Hpre Hstep.
  rewrite (scan_steps_passes_over pre (step :: post) generated_sql Hpre).
  cbn [scan_steps]. unfold Trace.passes_over in Hstep.
  destruct (is_sql_tool_call (fst step)); [left; auto |].
  right. split; [reflexivity |].
  cbn in Hstep.
  destruct (log (fst step)) as [log_entry |]; [| discriminate].
  apply negb_false_iff in Hstep. rewrite Hstep.
  exists log_entry. split; [reflexivity |].
  unfold log_matches in Hstep. apply andb_prop in Hstep as [_ Hwith].
  destruct (sql_of_log_total log_entry Hwith) as [sql Hsql].
  rewrite Hsql. reflexivity.
Qed.

(** X15: When no step decides, or the response has no [intermediate_steps], the
    reported SQL is the fixed text. *)
Theorem sql_query_sentinel (agent_response : AgentResponse) :
  intermediate_steps agent_response = None
  \/ (exists steps,
        intermediate_steps agent_response = Some steps
        /\ forallb Trace.passes_over steps = true) ->
  extract_generated_sql agent_response
  = "SQL query not explicitly extracted from agent steps.".
Proof.
  unfold extract_generated_sql.
  intros [-> | (steps & -> & Hsteps)]; [reflexivity |].
  rewrite <- (app_nil_r steps).
  rewrite (scan_steps_passes_over steps [] _ Hsteps). reflexivity.
Qed.

Lemma sql_query_from_first_deciding_step_witness :
  scan_steps [Examples.a_schema_step; Examples.a_query_step] sql_not_extracted
  = "SELECT 2".
Proof.
  destruct (sql_query_from_first_deciding_step [] [Examples.a_query_step]
              Examples.a_schema_step sql_not_extracted eq_refl eq_refl)
    as [[H _] | (_ & log_entry & Hlog & Hsql)].
  - discriminate H.
  - reflexivity.
Defined.

Lemma sql_query_sentinel_witness :
  extract_generated_sql
    (mkAgentResponse (Some [Examples.a_list_tables_step]) (Some "none"))
  = "SQL query not explicitly extracted from agent steps.".
Proof.
  apply sql_query_sentinel. right.
  exists [Examples.a_list_tables_step]. split; reflexivity.
Defined.


(** ** Appending strings *)

Lemma string_app_assoc (a b c : string) :
  ((a ++ b) ++ c)%string = (a ++ (b ++ c))%string.
Proof. induction a as [| x a IH]; cbn; [| rewrite IH]; reflexivity. Qed.

Lemma string_app_nil_r (a : string) : (a ++ EmptyString)%string = a.
Proof. induction a as [| x a IH]; cbn; [| rewrite IH]; reflexivity. Qed.

(** ** Cutting the SQL out of a log entry *)

(** After a separator has been found, the scan passes over the rest of
    it. *)
Lemma split_from_skip (sep : string) :
  forall (a rest : string),
    split_from sep (String.length a) (a ++ rest) = split_from sep 0 rest.
Proof.
  induction a as [| c a IH]; intros rest; [reflexivity |].
  cbn [String.length append split_from]. apply IH.
Qed.

(** [with `] does not overlap itself: when it starts a string made of
    [before], the marker and more, it already starts [before], unless
    [before] is empty. *)
Lemma with_marker_no_overlap (before rest : string) :
  prefix with_marker (before ++ with_marker ++ rest) = true ->
  before = EmptyString \/ prefix with_marker before = true.
Proof.
  unfold with_marker.
  destruct before as [| c1 [| c2 [| c3 [| c4 [| c5 [| c6 b]]]]]];
    cbn [append prefix]; auto;
    repeat match goal with
           | |- context [ascii_dec ?a ?b] =>
               let E := fresh "E" in
               destruct (ascii_dec a b) as [E | E];
               [first [discriminate E | subst] |]
           end; auto; try (intros H; discriminate H).
  intros _. right. destruct b; reflexivity.
Qed.

(** One piece is cut at the first marker: a string with the marker after
    [before], where [before] has no marker, splits into [before] and the
    pieces of what follows the marker. *)
Lemma split_at_first_with_marker (rest : string) :
  forall before,
    contains with_marker before = false ->
    split with_marker (before ++ with_marker ++ rest)
    = before :: split with_marker rest.
Proof.
  unfold split.
  induction before as [| c before IH]; intros Hbefore.
  - change (EmptyString ++ with_marker ++ rest)%string
      with (String "w" ("ith `" ++ rest)).
    cbn [split_from].
    replace (prefix with_marker (String "w" ("ith `" ++ rest))) with true.
    + change (pred (String.length with_marker)) with (String.length "ith `").
      rewrite split_from_skip. reflexivity.
    + symmetry. unfold with_marker. cbn [prefix append].
      repeat match goal with
             | |- context [ascii_dec ?a ?b] =>
                 let E := fresh "E" in
                 destruct (ascii_dec a b) as [E | E]; [| congruence]
             end.
      destruct rest; reflexivity.
  - cbn [contains] in Hbefore. apply orb_false_elim in Hbefore as [Hp Hc].
    cbn [append split_from].
    destruct (prefix with_marker (String c (before ++ with_marker ++ rest)))
      eqn:Hpre.
    + destruct (with_marker_no_overlap (String c before) rest Hpre)
        as [H | H]; [discriminate H | congruence].
    + rewrite (IH Hc). reflexivity.
Qed.

Lemma contains_tail_false (sub : string) (c : ascii) (s : string) :
  contains sub (String c s) = false ->
  prefix sub (String c s) = false /\ contains sub s = false.
Proof. cbn [contains]. apply orb_false_elim. Qed.

Lemma backtick_first (c : ascii) (s : string) :
  contains "`" (String c s) = false -> c <> "`"%char.
Proof.
  intros H Hc. subst c. apply contains_tail_false in H as [H _].
  cbn [prefix] in H. destruct (ascii_dec "`" "`") as [_ | E]; [| congruence].
  destruct s; discriminate H.
Qed.

(** A marker that starts a string made of [sql], a backtick and more, where
    [sql] has no backtick, lies within [sql] and that backtick. *)
Lemma with_marker_ends_at_backtick (sql rest : string) :
  contains "`" sql = false ->
  prefix with_marker (sql ++ String "`" rest) = true ->
  prefix with_marker (sql ++ "`") = true.
Proof.
  unfold with_marker. intros Hsql.
  destruct sql as [| c1 [| c2 [| c3 [| c4 [| c5 [| c6 b]]]]]];
    cbn [append prefix];
    repeat match goal with
           | |- context [ascii_dec ?a ?b] =>
               let E := fresh "E" in
               destruct (ascii_dec a b) as [E | E];
               [first [discriminate E | subst] |]
           end; auto; try (intros H; discriminate H).
  exfalso.
  do 5 (apply contains_tail_false in Hsql as [_ Hsql]).
  apply backtick_first in Hsql. congruence.
Qed.

(** The first piece of such a string reaches beyond [sql] and its backtick
    when [sql] followed by the backtick holds no marker. *)
Lemma first_piece_keeps_sql (rest : string) :
  forall sql,
    contains "`" sql = false ->
    contains with_marker (sql ++ "`") = false ->
    exists more,
      nth_error (split with_marker (sql ++ String "`" rest)) 0
      = Some (sql ++ String "`" more)%string.
Proof.
  unfold split.
  induction sql as [| c sql IH]; intros Hsql Hmarker.
  - cbn [append split_from].
    replace (prefix with_marker (String "`" rest)) with false
      by reflexivity.
    pose proof (split_from_not_nil with_marker rest 0) as Hn.
    destruct (split_from with_marker 0 rest) as [| p ps]; [congruence |].
    exists p. reflexivity.
  - apply contains_tail_false in Hsql as [_ Hsql'].
    pose proof Hmarker as Hm.
    cbn [append] in Hm. apply contains_tail_false in Hm as [Hp Hc].
    cbn [append split_from].
    destruct (prefix with_marker (String c (sql ++ String "`" rest)))
      eqn:Hpre.
    + exfalso.
      assert (Hno : contains "`" (String c sql) = false).
      { cbn [contains]. apply orb_false_intro; [| exact Hsql'].
        destruct (prefix "`" (String c sql)) eqn:Hb; [| reflexivity].
        exfalso. cbn [prefix] in Hb.
        destruct (ascii_dec "`" c) as [E | E]; [| discriminate Hb].
        subst c. cbn [prefix] in Hpre.
        destruct (ascii_dec "w" "`") as [E | E]; [discriminate E |].
        discriminate Hpre. }
      pose proof (with_marker_ends_at_backtick (String c sql) rest Hno Hpre)
        as H.
      cbn [append] in H. congruence.
    + destruct (IH Hsql' Hc) as [more Hmore].
      destruct (split_from with_marker 0 (sql ++ String "`" rest))
        as [| p ps]; [discriminate Hmore |].
      cbn [nth_error] in Hmore |- *. injection Hmore as ->.
      exists more. reflexivity.
Qed.

(** Splitting at the backtick gives back a [sql] that has none. *)
Lemma split_at_first_backtick (more : string) :
  forall sql,
    contains "`" sql = false ->
    nth_error (split "`" (sql ++ String "`" more)) 0 = Some sql.
Proof.
  unfold split.
  induction sql as [| c sql IH]; intros Hsql.
  - cbn [append split_from prefix].
    destruct (ascii_dec "`" "`") as [_ | E]; [| congruence].
    destruct more; reflexivity.
  - pose proof (backtick_first c sql Hsql) as Hc.
    apply contains_tail_false in Hsql as [_ Hsql].
    cbn [append split_from prefix].
    destruct (ascii_dec "`" c) as [E | _]; [congruence |].
    specialize (IH Hsql).
    destruct (split_from "`" 0 (sql ++ String "`" more)) as [| p ps];
      [discriminate IH |].
    cbn [nth_error] in IH |- *. injection IH as ->. reflexivity.
Qed.

(** X16: The SQL is recovered from a log entry of the expected shape: some text
    without the marker, the marker, the SQL, a closing backtick and anything
    after it, provided the SQL has no backtick and does not end in [with ]
    (which, with the closing backtick, would read as a marker). *)
Theorem sql_of_log_recovers_sql (before sql rest : string) :
  contains with_marker before = false ->
  contains "`" sql = false ->
  contains with_marker (sql ++ "`") = false ->
  sql_of_log (before ++ with_marker ++ sql ++ String "`" rest) = Ok sql.
Proof.
  intros Hbefore Hsql Hmarker. unfold sql_of_log.
  rewrite (split_at_first_with_marker _ before Hbefore).
  change (nth_error (before :: split with_marker (sql ++ String "`" rest)) 1)
    with (nth_error (split with_marker (sql ++ String "`" rest)) 0).
  destruct (first_piece_keeps_sql rest sql Hsql Hmarker) as [more Hmore].
  rewrite Hmore.
  rewrite (split_at_first_backtick more sql Hsql). reflexivity.
Qed.

Lemma sql_of_log_recovers_sql_witness :
  sql_of_log
    (("Invoking " ++ String "034"%char ("sql_db_query" ++ String "034"%char " "))
       ++ with_marker ++ "SELECT count(*) FROM contracts"
       ++ String "`" ". responded: 12")
  = Ok "SELECT count(*) FROM contracts".
Proof.
  apply sql_of_log_recovers_sql; reflexivity.
Defined.

(** A string without the separator is its own single piece. *)
Lemma split_without_separator (sep : string) :
  forall s, contains sep s = false -> split sep s = [s].
Proof.
  unfold split.
  induction s as [| c s IH]; intros H; [reflexivity |].
  apply contains_tail_false in H as [Hp Hc].
  cbn [split_from]. rewrite Hp, (IH Hc). reflexivity.
Qed.

(** X17: A SQL text that ends in [with ] loses those five characters: together
    with the closing backtick they read as a second marker, and the piece
    between the two markers is what is reported. *)
Theorem sql_ending_in_with_is_cut (before sql rest : string) :
  contains with_marker before = false ->
  contains with_marker sql = false ->
  contains "`" sql = false ->
  sql_of_log (before ++ with_marker ++ (sql ++ "with ") ++ String "`" rest)
  = Ok sql.
Proof.
  intros Hbefore Hmarker Hsql. unfold sql_of_log.
  rewrite (split_at_first_with_marker _ before Hbefore).
  replace ((sql ++ "with ") ++ String "`" rest)%string
    with (sql ++ with_marker ++ rest)%string
    by (rewrite string_app_assoc; reflexivity).
  rewrite (split_at_first_with_marker rest sql Hmarker).
  cbn [nth_error].
  rewrite (split_without_separator "`" sql Hsql). reflexivity.
Qed.

Lemma sql_ending_in_with_is_cut_witness :
  sql_of_log
    ("Invoking " ++ with_marker ++ ("SELECT 1 AS " ++ "with ")
       ++ String "`" EmptyString)
  = Ok "SELECT 1 AS ".
Proof.
  apply (sql_ending_in_with_is_cut "Invoking " "SELECT 1 AS " EmptyString);
    reflexivity.
Defined.


(** ** The grouping of rows *)

Import Grouping.

Lemma has_key_app (key : string) (d1 d2 : TablesData) :
  has_key key (d1 ++ d2)%list = has_key key d1 || has_key key d2.
Proof.
  induction d1 as [| [k data] d1 IH]; [reflexivity |].
  cbn. rewrite IH. apply orb_assoc.
Qed.

Lemma has_key_In (key : string) (d : TablesData) :
  has_key key d = true <-> In key (map fst d).
Proof.
  induction d as [| [k data] d IH]; cbn.
  - split; [discriminate | contradiction].
  - rewrite orb_true_iff, IH, String.eqb_eq. reflexivity.
Qed.

Lemma has_key_not_In (key : string) (d : TablesData) :
  has_key key d = false <-> ~ In key (map fst d).
Proof.
  rewrite <- has_key_In. destruct (has_key key d); split; congruence.
Qed.

Lemma append_column_keys (key : string) (col : Column) (d : TablesData) :
  map fst (append_column key col d) = map fst d.
Proof.
  induction d as [| [k data] d IH]; [reflexivity |].
  cbn. destruct (String.eqb k key); cbn; [| rewrite IH]; reflexivity.
Qed.

Lemma has_key_append_column (k key : string) (col : Column) (d : TablesData) :
  has_key k (append_column key col d) = has_key k d.
Proof.
  induction d as [| [k' data] d IH]; [reflexivity |].
  cbn. destruct (String.eqb k' key); cbn; [| rewrite IH]; reflexivity.
Qed.

Lemma append_column_app (key : string) (col : Column) (d1 d2 : TablesData) :
  has_key key d1 = false ->
  append_column key col (d1 ++ d2)%list
  = (d1 ++ append_column key col d2)%list.
Proof.
  induction d1 as [| [k data] d1 IH]; [reflexivity |].
  cbn. intros H. apply orb_false_elim in H as [Hk Hd].
  rewrite Hk, (IH Hd). reflexivity.
Qed.

(** A row with a key the dict does not have adds an entry at the end, with
    the row's schema, name and table comment and its one column. *)
Lemma add_row_new (d : TablesData) (row : ColumnRow) :
  has_key (row_key row) d = false ->
  add_row d row
  = (d ++ [(row_key row,
            mkTableData (table_schema row) (table_name row)
              (table_comment row) [row_column row])])%list.
Proof.
  intros H. unfold add_row. fold (row_key row). rewrite H.
  rewrite (append_column_app _ _ d _ H).
  cbn. rewrite String.eqb_refl. reflexivity.
Qed.

(** A row with a key the dict has appends its column to that entry. *)
Lemma add_row_old (d : TablesData) (row : ColumnRow) :
  has_key (row_key row) d = true ->
  add_row d row = append_column (row_key row) (row_column row) d.
Proof.
  intros H. unfold add_row. fold (row_key row). rewrite H. reflexivity.
Qed.

Lemma rows_of_cons (key : string) (row : ColumnRow) (rows : list ColumnRow) :
  rows_of key (row :: rows)
  = if String.eqb (row_key row) key then row :: rows_of key rows
    else rows_of key rows.
Proof. reflexivity. Qed.

Lemma extend_other_row (row : ColumnRow) (rows : list ColumnRow)
  (d : TablesData) :
  ~ In (row_key row) (map fst d) ->
  map (extend (row :: rows)) d = map (extend rows) d.
Proof.
  induction d as [| [k data] d IH]; [reflexivity |].
  cbn [map fst In]. intros H.
  rewrite IH by tauto.
  unfold extend at 1 3. cbn [fst snd]. rewrite rows_of_cons.
  destruct (String.eqb_spec (row_key row) k) as [E | E];
    [exfalso; apply H; left; symmetry; exact E |].
  reflexivity.
Qed.

Lemma extend_append_column (row : ColumnRow) (rows : list ColumnRow)
  (d : TablesData) :
  NoDup (map fst d) ->
  map (extend rows) (append_column (row_key row) (row_column row) d)
  = map (extend (row :: rows)) d.
Proof.
  induction d as [| [k data] d IH]; [reflexivity |].
  cbn [map fst append_column]. intros Hnd.
  apply NoDup_cons_iff in Hnd as [Hk Hnd].
  destruct (String.eqb_spec k (row_key row)) as [E | E].
  - subst k. cbn [map].
    rewrite (extend_other_row row rows d Hk).
    unfold extend at 1 3.
    cbn [fst snd td_schema td_name td_comment td_columns].
    rewrite rows_of_cons, String.eqb_refl.
    cbn [map]. rewrite <- app_assoc. reflexivity.
  - cbn [map]. rewrite (IH Hnd).
    unfold extend at 1 3. cbn [fst snd]. rewrite rows_of_cons.
    destruct (String.eqb_spec (row_key row) k) as [E' | E']; [congruence |].
    reflexivity.
Qed.

Lemma filter_comm {A} (p q : A -> bool) (l : list A) :
  filter p (filter q l) = filter q (filter p l).
Proof.
  induction l as [| x l IH]; [reflexivity |].
  cbn. destruct (p x) eqn:Hp, (q x) eqn:Hq; cbn;
    rewrite ?Hp, ?Hq, IH; reflexivity.
Qed.

Lemma filter_idem {A} (p : A -> bool) (l : list A) :
  filter p (filter p l) = filter p l.
Proof.
  induction l as [| x l IH]; [reflexivity |].
  cbn. destruct (p x) eqn:Hp; cbn; rewrite ?Hp, IH; reflexivity.
Qed.

Lemma filter_all {A} (p : A -> bool) (l : list A) :
  (forall x, In x l -> p x = true) -> filter p l = l.
Proof.
  induction l as [| x l IH]; [reflexivity |].
  intros H. cbn. rewrite (H x (or_introl eq_refl)), IH; [reflexivity |].
  intros y Hy. apply H. right. exact Hy.
Qed.

Lemma flat_map_ext_In {A B} (f g : A -> list B) (l : list A) :
  (forall x, In x l -> f x = g x) -> flat_map f l = flat_map g l.
Proof.
  induction l as [| x l IH]; [reflexivity |].
  intros H. cbn. rewrite (H x (or_introl eq_refl)), IH; [reflexivity |].
  intros y Hy. apply H. right. exact Hy.
Qed.

(** The rows whose key is not yet in the dict. *)
Lemma filter_new_keys (d : TablesData) (key : string) (data : TableData)
  (rows : list ColumnRow) :
  filter (fun r => negb (has_key (row_key r) (d ++ [(key, data)])%list)) rows
  = filter (fun r => negb (String.eqb key (row_key r)))
      (filter (fun r => negb (has_key (row_key r) d)) rows).
Proof.
  induction rows as [| r rows IH]; [reflexivity |].
  cbn [filter]. rewrite has_key_app. cbn [has_key]. rewrite orb_false_r.
  destruct (has_key (row_key r) d); cbn [negb orb filter].
  - exact IH.
  - destruct (String.eqb key (row_key r)); cbn [negb]; rewrite IH;
      reflexivity.
Qed.

Lemma distinct_keys_filter (key : string) (rows : list ColumnRow) :
  distinct_keys (filter (fun r => negb (String.eqb key (row_key r))) rows)
  = filter (fun k => negb (String.eqb k key)) (distinct_keys rows).
Proof.
  induction rows as [| r rows IH]; [reflexivity |].
  cbn [filter distinct_keys].
  destruct (String.eqb_spec key (row_key r)) as [E | E]; cbn [negb].
  - subst key. rewrite String.eqb_refl. cbn [negb].
    rewrite filter_idem. exact IH.
  - destruct (String.eqb_spec (row_key r) key) as [E' | _]; [congruence |].
    cbn [negb distinct_keys]. rewrite IH, filter_comm. reflexivity.
Qed.

Lemma rows_of_filter_other (k key : string) (rows : list ColumnRow) :
  k <> key ->
  rows_of k (filter (fun r => negb (String.eqb key (row_key r))) rows)
  = rows_of k rows.
Proof.
  intros Hk. unfold rows_of. rewrite filter_comm.
  induction rows as [| r rows IH]; [reflexivity |].
  cbn [filter].
  destruct (String.eqb_spec (row_key r) k) as [E | E]; cbn [filter].
  - destruct (String.eqb_spec key (row_key r)) as [E' | _]; [congruence |].
    cbn [negb]. rewrite IH. reflexivity.
  - exact IH.
Qed.

Lemma rows_of_new_key (d : TablesData) (key : string)
  (rows : list ColumnRow) :
  has_key key d = false ->
  rows_of key (filter (fun r => negb (has_key (row_key r) d)) rows)
  = rows_of key rows.
Proof.
  intros Hd. unfold rows_of. rewrite filter_comm.
  induction rows as [| r rows IH]; [reflexivity |].
  cbn [filter].
  destruct (String.eqb_spec (row_key r) key) as [E | E]; cbn [filter].
  - rewrite E, Hd. cbn [negb]. rewrite IH. reflexivity.
  - exact IH.
Qed.

Lemma entry_of_cons_other (r : ColumnRow) (rows : list ColumnRow)
  (k : string) :
  k <> row_key r -> entry_of (r :: rows) k = entry_of rows k.
Proof.
  intros Hk. unfold entry_of. rewrite rows_of_cons.
  destruct (String.eqb_spec (row_key r) k) as [E | _]; [congruence |].
  reflexivity.
Qed.

Lemma entry_of_filter_other (key : string) (rows : list ColumnRow)
  (k : string) :
  k <> key ->
  entry_of (filter (fun r => negb (String.eqb key (row_key r))) rows) k
  = entry_of rows k.
Proof.
  intros Hk. unfold entry_of.
  rewrite (rows_of_filter_other k key rows Hk). reflexivity.
Qed.

Lemma extend_no_rows (d : TablesData) : map (extend []) d = d.
Proof.
  induction d as [| [k [s n c cols]] d IH]; [reflexivity |].
  cbn [map]. rewrite IH. unfold extend. cbn. rewrite app_nil_r.
  reflexivity.
Qed.

(** The loop over the rows, from any dict with distinct keys: the entries
    it has get the columns of the rows with their key, then come the entries
    of the keys it does not have. *)
Lemma fold_add_row (rows : list ColumnRow) :
  forall d : TablesData,
    NoDup (map fst d) ->
    fold_left add_row rows d
    = (map (extend rows) d
         ++ grouped (filter (fun r => negb (has_key (row_key r) d)) rows))%list.
Proof.
  induction rows as [| r rows IH]; intros d Hnd.
  - cbn. rewrite extend_no_rows, app_nil_r. reflexivity.
  - cbn [fold_left filter].
    destruct (has_key (row_key r) d) eqn:Hkey; cbn [negb].
    + rewrite (add_row_old d r Hkey).
      rewrite IH by (rewrite append_column_keys; exact Hnd).
      rewrite (extend_append_column r rows d Hnd).
      f_equal. f_equal. apply filter_ext. intros r'.
      rewrite has_key_append_column. reflexivity.
    + rewrite (add_row_new d r Hkey).
      pose proof (proj1 (has_key_not_In _ _) Hkey) as Hnotin.
      rewrite IH.
      2:{ rewrite map_app. cbn [map fst].
          apply NoDup_app; [exact Hnd | repeat constructor; intros [] |].
          intros k Hin [<- | []]. exact (Hnotin Hin). }
      rewrite map_app, <- app_assoc.
      rewrite (extend_other_row r rows d Hnotin).
      f_equal.
      rewrite filter_new_keys.
      set (X := filter (fun r' => negb (has_key (row_key r') d)) rows).
      unfold grouped at 2. cbn [distinct_keys flat_map].
      f_equal.
      * (* the entry of the new key *)
        unfold extend, entry_of. cbn [map fst snd td_schema td_name
                                          td_comment td_columns].
        rewrite rows_of_cons, String.eqb_refl.
        unfold X. rewrite (rows_of_new_key d (row_key r) rows Hkey).
        reflexivity.
      * (* the entries of the other new keys *)
        unfold grouped. rewrite distinct_keys_filter.
        apply flat_map_ext_In. intros k Hk.
        apply filter_In in Hk as [_ Hk].
        apply negb_true_iff in Hk.
        apply String.eqb_neq in Hk.
        rewrite (entry_of_filter_other (row_key r) X k Hk).
        rewrite (entry_of_cons_other r X k Hk). reflexivity.
Qed.

Lemma group_rows_from_empty (rows : list ColumnRow) :
  fold_left add_row rows [] = grouped rows.
Proof.
  rewrite (fold_add_row rows [] (NoDup_nil _)).
  cbn [map app has_key negb].
  rewrite filter_all by reflexivity. reflexivity.
Qed.

(** X19: [group_rows] is the grouping by key: one entry for each distinct
    [schema.table] text, in order of first appearance, with the schema, name
    and table comment of the first row that carries the key and one column
    for each row that carries it, in the order of the rows. *)
Theorem group_rows_is_grouped (rows : list ColumnRow) :
  group_rows rows = grouped rows.
Proof.
  unfold group_rows.
  rewrite (fold_add_row rows [] (NoDup_nil _)).
  cbn [map app has_key negb].
  rewrite filter_all by reflexivity. reflexivity.
Qed.

(** ** Invariants of the dict *)

Lemma column_total_app (d1 d2 : TablesData) :
  column_total (d1 ++ d2)%list = column_total d1 + column_total d2.
Proof. unfold column_total. rewrite map_app. apply list_sum_app. Qed.

Lemma column_total_cons (entry : string * TableData) (d : TablesData) :
  column_total (entry :: d)
  = List.length (td_columns (snd entry)) + column_total d.
Proof. reflexivity. Qed.

Lemma column_total_append_column (key : string) (col : Column)
  (d : TablesData) :
  has_key key d = true ->
  column_total (append_column key col d) = S (column_total d).
Proof.
  induction d as [| [k data] d IH]; [discriminate |].
  cbn [has_key append_column].
  destruct (String.eqb k key); cbn [orb].
  - intros _. rewrite !column_total_cons. cbn [snd td_columns].
    rewrite length_app. cbn. lia.
  - intros H. rewrite !column_total_cons, (IH H). lia.
Qed.

Lemma add_row_invariants (d : TablesData) (row : ColumnRow) :
  NoDup (map fst d) ->
  NoDup (map fst (add_row d row))
  /\ column_total (add_row d row) = S (column_total d)
  /\ List.length d <= List.length (add_row d row) <= S (List.length d).
Proof.
  intros Hnd.
  destruct (has_key (row_key row) d) eqn:Hkey.
  - rewrite (add_row_old d row Hkey).
    rewrite append_column_keys.
    split; [exact Hnd |].
    split; [apply column_total_append_column; exact Hkey |].
    rewrite <- (length_map fst (append_column _ _ _)), append_column_keys,
      length_map. lia.
  - rewrite (add_row_new d row Hkey).
    pose proof (proj1 (has_key_not_In _ _) Hkey) as Hnotin.
    split; [| split].
    + rewrite map_app. cbn [map fst].
      apply NoDup_app; [exact Hnd | repeat constructor; intros [] |].
      intros k Hin [<- | []]. exact (Hnotin Hin).
    + rewrite column_total_app. unfold column_total at 2. cbn. lia.
    + rewrite length_app. cbn. lia.
Qed.

(** X20: Whatever the rows, the dict has each key once, holds exactly one column
    for each row, and has at most as many entries as there are rows. *)
Theorem group_rows_invariants (rows : list ColumnRow) :
  NoDup (map fst (group_rows rows))
  /\ column_total (group_rows rows) = List.length rows
  /\ List.length (group_rows rows) <= List.length rows.
Proof.
  unfold group_rows.
  assert (H : forall d,
             NoDup (map fst d) ->
             NoDup (map fst (fold_left add_row rows d))
             /\ column_total (fold_left add_row rows d)
                = column_total d + List.length rows
             /\ List.length (fold_left add_row rows d)
                <= List.length d + List.length rows).
  { induction rows as [| r rows IH]; intros d Hnd.
    - cbn [fold_left Datatypes.length]. split; [exact Hnd | split; lia].
    - cbn [fold_left List.length].
      destruct (add_row_invariants d r Hnd) as (Hnd' & Htotal & Hlen).
      destruct (IH _ Hnd') as (H1 & H2 & H3).
      cbn [Datatypes.length]. split; [exact H1 | split; lia]. }
  destruct (H [] (NoDup_nil _)) as (H1 & H2 & H3).
  cbn in H2, H3. split; [exact H1 | split; [exact H2 | exact H3]].
Qed.

(** X21: Rows are grouped by the text [schema.table], not by the pair: two rows
    whose keys read the same share one entry, which keeps the schema, name
    and table comment of the first and holds the columns of both. *)
Theorem same_key_rows_share_an_entry (r1 r2 : ColumnRow) :
  table_key (table_schema r1) (table_name r1)
  = table_key (table_schema r2) (table_name r2) ->
  group_rows [r1; r2]
  = [(table_key (table_schema r1) (table_name r1),
      mkTableData (table_schema r1) (table_name r1) (table_comment r1)
        [mkColumn (column_name r1) (data_type r1) (column_comment r1);
         mkColumn (column_name r2) (data_type r2) (column_comment r2)])].
Proof.
  intros Hkey. unfold group_rows. cbn [fold_left].
  rewrite (add_row_new [] r1 eq_refl). cbn [app].
  rewrite add_row_old.
  - unfold row_key. rewrite <- Hkey. cbn [append_column].
    rewrite String.eqb_refl. reflexivity.
  - cbn [has_key]. unfold row_key. rewrite Hkey, String.eqb_refl.
    reflexivity.
Qed.

Lemma same_key_rows_share_an_entry_witness :
  (table_schema Examples.dotted_schema_row,
   table_name Examples.dotted_schema_row)
  <> (table_schema Examples.dotted_table_row,
      table_name Examples.dotted_table_row)
  /\ group_rows [Examples.dotted_schema_row; Examples.dotted_table_row]
     = [("a.b.c",
         mkTableData "a.b" "c" EmptyString
           [mkColumn "id" "integer" EmptyString;
            mkColumn "total" "numeric" EmptyString])].
Proof.
  split; [discriminate |].
  apply (same_key_rows_share_an_entry Examples.dotted_schema_row
           Examples.dotted_table_row).
  reflexivity.
Defined.

(** ** The text of a document *)

Lemma rstrip_app_nonspace (c : ascii) (b : string) :
  is_space c = false ->
  forall a, rstrip (a ++ String c b) = (a ++ String c (rstrip b))%string.
Proof.
  intros Hc.
  assert (Hbase : rstrip (String c b) = String c (rstrip b)).
  { cbn [rstrip]. rewrite Hc. destruct (rstrip b); reflexivity. }
  induction a as [| x a IH]; [exact Hbase |].
  cbn [append rstrip]. rewrite IH.
  destruct a; reflexivity.
Qed.

(** [strip] leaves a text alone up to a character that is not white space,
    when its first character is not white space either. *)
Lemma strip_keeps_head (c0 c : ascii) (a b : string) :
  is_space c0 = false -> is_space c = false ->
  strip (String c0 (a ++ String c b))
  = String c0 (a ++ String c (rstrip b)).
Proof.
  intros H0 Hc. unfold strip.
  change (String c0 (a ++ String c b)) with (String c0 a ++ String c b)%string.
  rewrite (rstrip_app_nonspace c b Hc (String c0 a)).
  cbn [append lstrip]. rewrite H0. reflexivity.
Qed.

Lemma fold_left_append {A} (f : A -> string) (l : list A) :
  forall init,
    fold_left (fun acc x => acc ++ f x)%string l init
    = (init ++ String.concat EmptyString (map f l))%string.
Proof.
  induction l as [| x l IH]; intros init.
  - cbn. rewrite string_app_nil_r. reflexivity.
  - cbn [fold_left map]. rewrite IH, string_app_assoc. f_equal.
    destruct l as [| y l]; cbn [map String.concat].
    + rewrite string_app_nil_r. reflexivity.
    + reflexivity.
Qed.

Ltac normalize_append :=
  repeat first [rewrite !string_app_assoc | progress cbn [append]].

(** The text of a table document starts with the header line naming the
    table and its schema; [strip] removes nothing of it. *)
Lemma table_document_header (data : TableData) :
  exists rest,
    page_content (table_document data)
    = ("Table: " ++ td_name data ++ " (Schema: " ++ td_schema data ++ ")"
         ++ rest)%string.
Proof.
  unfold table_document, table_doc_content. cbn [page_content].
  rewrite fold_left_append.
  set (lines := String.concat EmptyString (map render_column (td_columns data))).
  set (comment := if truthy (td_comment data)
                  then ("Comment: " ++ td_comment data ++ nl)%string
                  else EmptyString).
  replace (("Table: " ++ td_name data ++ " (Schema: " ++ td_schema data
              ++ ")" ++ nl ++ comment ++ "Columns:" ++ nl) ++ lines)%string
    with (String "T" ((("able: " ++ td_name data) ++ " (Schema: "
                         ++ td_schema data)
                        ++ String ")" (nl ++ comment ++ ("Columns:" ++ nl)
                                         ++ lines)))%string.
  - rewrite strip_keeps_head by reflexivity.
    eexists. normalize_append. reflexivity.
  - normalize_append. reflexivity.
Qed.

Lemma view_document_header (row : ViewRow) :
  exists rest,
    page_content (view_document row)
    = ("View: " ++ view_name row ++ " (Schema: " ++ view_schema row ++ ")"
         ++ rest)%string.
Proof.
  unfold view_document, view_doc_content. cbn [page_content].
  set (comment := if truthy (view_comment row)
                  then ("Comment: " ++ view_comment row ++ nl)%string
                  else EmptyString).
  replace ("View: " ++ view_name row ++ " (Schema: " ++ view_schema row
             ++ ")" ++ nl ++ comment ++ "Definition:" ++ nl
             ++ view_definition row ++ nl)%string
    with (String "V" ((("iew: " ++ view_name row) ++ " (Schema: "
                         ++ view_schema row)
                        ++ String ")" (nl ++ comment ++ "Definition:" ++ nl
                                         ++ view_definition row ++ nl)))%string.
  - rewrite strip_keeps_head by reflexivity.
    eexists. normalize_append. reflexivity.
  - normalize_append. reflexivity.
Qed.

(** X23: Every document [extract_metadata] returns starts with a header line
    that names the object and its schema, [Table: ] for a table and [View: ]
    for a view, and its metadata carries the same two names; so no document
    has an empty text. *)
Theorem extracted_documents_are_headed (engine : Engine)
  (docs : list Document) (doc : Document) :
  extract_metadata engine = Ok docs ->
  In doc docs ->
  exists name schema rest,
    (page_content doc
     = ("Table: " ++ name ++ " (Schema: " ++ schema ++ ")" ++ rest)%string
     /\ metadata doc
        = [("source_type", "table"); ("table_name", name);
           ("schema_name", schema)])
    \/ (page_content doc
        = ("View: " ++ name ++ " (Schema: " ++ schema ++ ")" ++ rest)%string
        /\ metadata doc
           = [("source_type", "view"); ("view_name", name);
              ("schema_name", schema)]).
Proof.
  unfold extract_metadata.
  destruct (fst (connect engine)) as [connection | e]; [| discriminate].
  intros H. injection H as <-. rewrite in_app_iff.
  unfold table_documents, view_documents.
  intros [Hin | Hin].
  - destruct (exec_table_column_query connection) as [rows | e];
      [| contradiction].
    apply in_map_iff in Hin as ([k data] & <- & _). cbn [snd].
    destruct (table_document_header data) as [rest Hrest].
    exists (td_name data), (td_schema data), rest.
    left. split; [exact Hrest | reflexivity].
  - destruct (exec_view_query connection) as [rows | e]; [| contradiction].
    apply in_map_iff in Hin as (row & <- & _).
    destruct (view_document_header row) as [rest Hrest].
    exists (view_name row), (view_schema row), rest.
    right. split; [exact Hrest | reflexivity].
Qed.

Lemma extracted_documents_are_headed_witness :
  exists name schema rest,
    (page_content (view_document Examples.a_view)
     = ("Table: " ++ name ++ " (Schema: " ++ schema ++ ")" ++ rest)%string
     /\ metadata (view_document Examples.a_view)
        = [("source_type", "table"); ("table_name", name);
           ("schema_name", schema)])
    \/ (page_content (view_document Examples.a_view)
        = ("View: " ++ name ++ " (Schema: " ++ schema ++ ")" ++ rest)%string
        /\ metadata (view_document Examples.a_view)
           = [("source_type", "view"); ("view_name", name);
              ("schema_name", schema)]).
Proof.
  apply (extracted_documents_are_headed
           [Ok Examples.some_rows_connection]
           (table_documents Examples.some_rows_connection
              ++ view_documents Examples.some_rows_connection)%list).
  - reflexivity.
  - apply in_or_app. right. left. reflexivity.
Defined.

Lemma distinct_keys_In (rows : list ColumnRow) (k : string) :
  In k (distinct_keys rows) -> exists r, In r rows /\ row_key r = k.
Proof.
  induction rows as [| r rows IH]; cbn [distinct_keys In]; [contradiction |].
  intros [<- | Hin].
  - exists r. auto.
  - apply filter_In in Hin as [Hin _].
    destruct (IH Hin) as (r' & Hr' & Hk). exists r'. auto.
Qed.

Lemma grouped_length (rows : list ColumnRow) :
  List.length (grouped rows) = List.length (distinct_keys rows).
Proof.
  unfold grouped.
  assert (H : forall keys,
             (forall k, In k keys -> exists r, In r rows /\ row_key r = k) ->
             List.length (flat_map (entry_of rows) keys) = List.length keys).
  { induction keys as [| k keys IH]; intros Hkeys; [reflexivity |].
    cbn [flat_map]. rewrite length_app, IH.
    2:{ intros k' Hk'. apply Hkeys. right. exact Hk'. }
    destruct (Hkeys k (or_introl eq_refl)) as (r & Hr & Hk).
    unfold entry_of.
    destruct (rows_of k rows) as [| first others] eqn:Hrows.
    - exfalso.
      assert (Hin : In r (rows_of k rows)).
      { unfold rows_of. apply filter_In. split; [exact Hr |].
        apply String.eqb_eq. exact Hk. }
      rewrite Hrows in Hin. contradiction.
    - reflexivity. }
  apply H. apply distinct_keys_In.
Qed.

(** X24: When both statements succeed, [extract_metadata] returns one document
    for each distinct [schema.table] text among the column rows, then one
    for each row of the view statement. *)
Theorem document_count (engine : Engine) (connection : Connection)
  (rows : list ColumnRow) (views : list ViewRow) :
  fst (connect engine) = Ok connection ->
  exec_table_column_query connection = Ok rows ->
  exec_view_query connection = Ok views ->
  exists docs,
    extract_metadata engine = Ok docs
    /\ List.length docs
       = List.length (distinct_keys rows) + List.length views
    /\ skipn (List.length (distinct_keys rows)) docs
       = map view_document views.
Proof.
  intros Hconnect Hrows Hviews.
  unfold extract_metadata, table_documents, view_documents.
  rewrite Hconnect, Hrows, Hviews.
  eexists. split; [reflexivity |].
  assert (Hlen : List.length
                   (map (fun kd : string * TableData => table_document (snd kd))
                      (group_rows rows))
                 = List.length (distinct_keys rows)).
  { rewrite length_map. unfold group_rows.
    rewrite group_rows_from_empty. apply grouped_length. }
  split.
  - rewrite length_app, Hlen, length_map. reflexivity.
  - rewrite <- Hlen. rewrite skipn_app, skipn_all, Nat.sub_diag.
    reflexivity.
Qed.

Lemma document_count_witness :
  exists docs,
    extract_metadata [Ok Examples.some_rows_connection] = Ok docs
    /\ List.length docs = 2 + 1
    /\ skipn 2 docs = [view_document Examples.a_view].
Proof.
  apply (document_count [Ok Examples.some_rows_connection]
           Examples.some_rows_connection Examples.some_rows
           [Examples.a_view]); reflexivity.
Defined.


(** ** Keys and tables *)

Lemma same_table_eq (p q : string * string) :
  same_table p q = true <-> p = q.
Proof.
  destruct p as [s t], q as [s' t']. unfold same_table. cbn [fst snd].
  rewrite andb_true_iff, !String.eqb_eq. split.
  - intros [-> ->]. reflexivity.
  - intros H. injection H as -> ->. auto.
Qed.

(** The text [schema.table] determines the schema and the table when the
    schema names hold no dot. *)
Lemma table_key_injective (s1 t1 s2 t2 : string) :
  contains "." s1 = false ->
  contains "." s2 = false ->
  table_key s1 t1 = table_key s2 t2 ->
  s1 = s2 /\ t1 = t2.
Proof.
  unfold table_key. revert s2.
  induction s1 as [| c s1 IH]; intros s2 H1 H2 Hkey.
  - destruct s2 as [| c2 s2].
    + cbn in Hkey. injection Hkey as ->. auto.
    + exfalso. cbn in Hkey. injection Hkey as <- _.
      cbn [contains prefix] in H2.
      destruct (ascii_dec "." ".") as [_ | E]; [| congruence].
      destruct s2; discriminate H2.
  - destruct s2 as [| c2 s2].
    + exfalso. cbn in Hkey. injection Hkey as -> _.
      cbn [contains prefix] in H1.
      destruct (ascii_dec "." ".") as [_ | E]; [| congruence].
      destruct s1; discriminate H1.
    + cbn [append] in Hkey. injection Hkey as -> Hkey.
      cbn [contains] in H1, H2.
      apply orb_false_elim in H1 as [_ H1].
      apply orb_false_elim in H2 as [_ H2].
      destruct (IH s2 H1 H2 Hkey) as [-> ->]. auto.
Qed.

Lemma distinct_tables_In (rows : list ColumnRow) (p : string * string) :
  In p (distinct_tables rows) -> exists r, In r rows /\ row_table r = p.
Proof.
  induction rows as [| r rows IH]; cbn [distinct_tables In]; [contradiction |].
  intros [<- | Hin].
  - exists r. auto.
  - apply filter_In in Hin as [Hin _].
    destruct (IH Hin) as (r' & Hr' & Hp). exists r'. auto.
Qed.

Lemma map_filter_agree {A B} (f : A -> B) (p : A -> bool) (q : B -> bool)
  (l : list A) :
  (forall x, In x l -> p x = q (f x)) ->
  map f (filter p l) = filter q (map f l).
Proof.
  induction l as [| x l IH]; [reflexivity |].
  intros H. cbn [filter map].
  rewrite <- (H x (or_introl eq_refl)).
  destruct (p x); cbn [map]; rewrite IH; try reflexivity;
    intros y Hy; apply H; right; exact Hy.
Qed.

(** When the key determines the table on the rows at hand, the keys in
    order of first appearance are the keys of the tables in order of first
    appearance. *)
Lemma distinct_keys_of_tables (rows : list ColumnRow) :
  (forall r1 r2, In r1 rows -> In r2 rows ->
                 row_key r1 = row_key r2 -> row_table r1 = row_table r2) ->
  distinct_keys rows
  = map (fun p => table_key (fst p) (snd p)) (distinct_tables rows).
Proof.
  induction rows as [| r rows IH]; intros Hinj; [reflexivity |].
  cbn [distinct_keys distinct_tables map]. f_equal.
  rewrite IH.
  2:{ intros r1 r2 H1 H2. apply Hinj; right; assumption. }
  symmetry. apply map_filter_agree.
  intros p Hp.
  destruct (distinct_tables_In rows p Hp) as (r' & Hr' & <-).
  change (table_key (fst (row_table r')) (snd (row_table r')))
    with (row_key r').
  destruct (String.eqb_spec (row_key r') (row_key r)) as [E | E].
  - rewrite (Hinj r' r (or_intror Hr') (or_introl eq_refl) E).
    replace (same_table (row_table r) (row_table r)) with true
      by (symmetry; apply same_table_eq; reflexivity).
    reflexivity.
  - destruct (same_table (row_table r') (row_table r)) eqn:Hs;
      [| reflexivity].
    apply same_table_eq in Hs. exfalso. apply E.
    unfold row_key. unfold row_table in Hs. injection Hs as -> ->.
    reflexivity.
Qed.

(** X22: When no schema name holds a dot, [group_rows] has exactly one entry for
    each table (schema and name) that occurs in the rows, in order of first
    appearance, under the key [schema.table]. *)
Theorem one_entry_per_table (rows : list ColumnRow) :
  (forall r, In r rows -> contains "." (table_schema r) = false) ->
  map fst (group_rows rows)
  = map (fun p => table_key (fst p) (snd p)) (distinct_tables rows)
  /\ List.length (group_rows rows) = List.length (distinct_tables rows).
Proof.
  intros Hdots.
  assert (Hkeys : map fst (group_rows rows) = distinct_keys rows).
  { unfold group_rows. rewrite group_rows_from_empty. unfold grouped.
    assert (H : forall keys,
               (forall k, In k keys ->
                          exists r, In r rows /\ row_key r = k) ->
               map fst (flat_map (entry_of rows) keys) = keys).
    { induction keys as [| k keys IH]; intros Hk; [reflexivity |].
      cbn [flat_map]. rewrite map_app, IH.
      2:{ intros k' Hk'. apply Hk. right. exact Hk'. }
      destruct (Hk k (or_introl eq_refl)) as (r & Hr & Hkey).
      unfold entry_of.
      destruct (rows_of k rows) as [| first others] eqn:Hrows.
      - exfalso.
        assert (Hin : In r (rows_of k rows)).
        { unfold rows_of. apply filter_In. split; [exact Hr |].
          apply String.eqb_eq. exact Hkey. }
        rewrite Hrows in Hin. contradiction.
      - reflexivity. }
    apply H. apply distinct_keys_In. }
  assert (Heq : distinct_keys rows
                = map (fun p => table_key (fst p) (snd p))
                    (distinct_tables rows)).
  { apply distinct_keys_of_tables.
    intros r1 r2 H1 H2 Hkey. unfold row_table.
    destruct (table_key_injective _ _ _ _ (Hdots r1 H1) (Hdots r2 H2) Hkey)
      as [-> ->].
    reflexivity. }
  split.
  - rewrite Hkeys. exact Heq.
  - rewrite <- (length_map fst (group_rows rows)), Hkeys, Heq, length_map.
    reflexivity.
Qed.

Lemma one_entry_per_table_witness :
  map fst (group_rows Examples.some_rows)
  = map (fun p => table_key (fst p) (snd p))
      (distinct_tables Examples.some_rows)
  /\ List.length (group_rows Examples.some_rows)
     = List.length (distinct_tables Examples.some_rows).
Proof.
  apply (one_entry_per_table Examples.some_rows).
  intros r [<- | [<- | [<- | []]]]; reflexivity.
Defined.

(** ** health_check: the report *)

(** X18: A report with status [error] is always the same one: every component
    and both connections are reported as not initialized. *)
Theorem health_error_report (g : Globals) :
  status (health_check g) = "error" ->
  services (health_check g)
  = [ ("llm", "Not Initialized");
      ("embeddings_model", "Not Initialized");
      ("sql_database_engine", "Not Initialized");
      ("vector_store", "Not Initialized");
      ("qa_chain", "Not Initialized");
      ("sql_agent_executor", "Not Initialized");
      ("postgresql_connection", "Not Initialized");
      ("chromadb_connection", "Not Initialized or not Chroma") ].
Proof.
  unfold health_check, check_db, check_chroma, db_engine_and_engine,
    components.
  destruct (llm g), (embeddings_model g), (db_engine g) as [db |],
    (vectorstore g) as [vs |], (qa_chain g), (sql_agent_executor g);
    try destruct (sd_engine db) as [engine |];
    try destruct (select_1_probe engine);
    try destruct (client_heartbeat vs);
    cbn; intros H; first [discriminate H | reflexivity].
Qed.

Lemma health_error_report_witness :
  services (health_check initial_globals)
  = [ ("llm", "Not Initialized");
      ("embeddings_model", "Not Initialized");
      ("sql_database_engine", "Not Initialized");
      ("vector_store", "Not Initialized");
      ("qa_chain", "Not Initialized");
      ("sql_agent_executor", "Not Initialized");
      ("postgresql_connection", "Not Initialized");
      ("chromadb_connection", "Not Initialized or not Chroma") ].
Proof.
  apply health_error_report. reflexivity.
Defined.


(** ** The lines of a table document *)

Lemma concat_empty_cons (x : string) (l : list string) :
  String.concat EmptyString (x :: l)
  = (x ++ String.concat EmptyString l)%string.
Proof.
  destruct l as [| y l]; cbn [String.concat].
  - rewrite string_app_nil_r. reflexivity.
  - reflexivity.
Qed.

Lemma concat_empty_app (l1 l2 : list string) :
  String.concat EmptyString (l1 ++ l2)
  = (String.concat EmptyString l1 ++ String.concat EmptyString l2)%string.
Proof.
  induction l1 as [| x l1 IH]; [reflexivity |].
  cbn [app]. rewrite !concat_empty_cons, IH, string_app_assoc. reflexivity.
Qed.

Lemma rstrip_trailing_space (c : ascii) :
  is_space c = true ->
  forall s, rstrip (s ++ String c EmptyString) = rstrip s.
Proof.
  intros Hc. induction s as [| x s IH].
  - cbn. rewrite Hc. reflexivity.
  - cbn [append rstrip]. rewrite IH. reflexivity.
Qed.

(** X25: The text of a table document, line by line: the header, the comment
    line when the table has a comment, [Columns:], then one line
    [  - name (type)] or [  - name (type): comment] for each column in the
    order of the rows.  [strip] only removes white space at the very end:
    the last newline, and white space that ends the last column's
    comment. *)
Theorem table_document_text (data : TableData) (init : list Column)
  (last : Column) :
  td_columns data = (init ++ [last])%list ->
  page_content (table_document data)
  = ("Table: " ++ td_name data ++ " (Schema: " ++ td_schema data ++ ")" ++ nl
       ++ (if truthy (td_comment data)
           then "Comment: " ++ td_comment data ++ nl else EmptyString)
       ++ "Columns:" ++ nl
       ++ String.concat EmptyString (map render_column init)
       ++ "  - " ++ col_name last ++ " (" ++ col_type last ++ ")"
       ++ rstrip (if truthy (col_comment last)
                  then ": " ++ col_comment last else EmptyString))%string.
Proof.
  intros Hcols.
  unfold table_document, table_doc_content. cbn [page_content].
  rewrite fold_left_append, Hcols, map_app, concat_empty_app.
  cbn [map String.concat]. unfold render_column at 2.
  set (lines := String.concat EmptyString (map render_column init)).
  set (comment := if truthy (td_comment data)
                  then ("Comment: " ++ td_comment data ++ nl)%string
                  else EmptyString).
  set (last_comment := if truthy (col_comment last)
                       then (": " ++ col_comment last)%string
                       else EmptyString).
  replace (("Table: " ++ td_name data ++ " (Schema: " ++ td_schema data
              ++ ")" ++ nl ++ comment ++ "Columns:" ++ nl)
             ++ lines
             ++ "  - " ++ col_name last ++ " (" ++ col_type last ++ ")"
             ++ last_comment ++ nl)%string
    with (String "T"
            (("able: " ++ td_name data ++ " (Schema: " ++ td_schema data
                ++ ")" ++ nl ++ comment ++ "Columns:" ++ nl ++ lines
                ++ "  - " ++ col_name last ++ " (" ++ col_type last)
               ++ String ")" (last_comment ++ nl)))%string
    by (normalize_append; reflexivity).
  rewrite strip_keeps_head by reflexivity.
  unfold nl at 3. rewrite rstrip_trailing_space by reflexivity.
  normalize_append. reflexivity.
Qed.

Lemma table_document_text_witness :
  page_content
    (table_document
       (mkTableData "sales" "contracts" "Stores sales contracts."
          [mkColumn "contract_id" "integer" "Unique identifier.";
           mkColumn "status" "text" EmptyString]))
  = ("Table: contracts (Schema: sales)" ++ nl
       ++ "Comment: Stores sales contracts." ++ nl
       ++ "Columns:" ++ nl
       ++ "  - contract_id (integer): Unique identifier." ++ nl
       ++ "  - status (text)")%string.
Proof.
  apply (table_document_text
           (mkTableData "sales" "contracts" "Stores sales contracts."
              [mkColumn "contract_id" "integer" "Unique identifier.";
               mkColumn "status" "text" EmptyString])
           [mkColumn "contract_id" "integer" "Unique identifier."]
           (mkColumn "status" "text" EmptyString)).
  reflexivity.
Defined.


(** X26: The text of a view document: the header, the comment line when the view
    has a comment, [Definition:] and the definition as the database returns
    it, from which [strip] removes the white space at its end (and the
    newline before it when the definition is all white space). *)
Theorem view_document_text (row : ViewRow) :
  page_content (view_document row)
  = ("View: " ++ view_name row ++ " (Schema: " ++ view_schema row ++ ")" ++ nl
       ++ (if truthy (view_comment row)
           then "Comment: " ++ view_comment row ++ nl else EmptyString)
       ++ "Definition:" ++ rstrip (nl ++ view_definition row))%string.
Proof.
  unfold view_document, view_doc_content. cbn [page_content].
  set (comment := if truthy (view_comment row)
                  then ("Comment: " ++ view_comment row ++ nl)%string
                  else EmptyString).
  replace ("View: " ++ view_name row ++ " (Schema: " ++ view_schema row
             ++ ")" ++ nl ++ comment ++ "Definition:" ++ nl
             ++ view_definition row ++ nl)%string
    with (String "V"
            (("iew: " ++ view_name row ++ " (Schema: " ++ view_schema row
                ++ ")" ++ nl ++ comment ++ "Definition")
               ++ String ":" ((nl ++ view_definition row) ++ nl)))%string
    by (normalize_append; reflexivity).
  rewrite strip_keeps_head by reflexivity.
  change ((nl ++ view_definition row) ++ nl)%string
    with ((nl ++ view_definition row) ++ String "010" EmptyString)%string.
  rewrite rstrip_trailing_space by reflexivity.
  normalize_append. reflexivity.
Qed.
